(** * Verification of the arithmetic and state handling of finance-report-app

    Shallow embedding of the pieces of [ft3.py], [p4.py] and
    [wifi_analyzer.py] that carry the computations of the applications:
    the loan amortization table, the NPV computation, the float
    conversion and TVA fallback, the RSSI helpers, the trilateration
    placeholder, the monitoring history and form persistence.

    Money and rates are modelled with exact rationals [Q]; the RSSI to
    distance formula, which uses [math.pow] with a real exponent, with
    real numbers [R]. *)

From Stdlib Require Import ZArith Lia QArith Qfield Qminmax Lqa Bool String Ascii List.
From Stdlib Require Import Reals Lra Rpower Qreals.
From stdpp Require gmap strings.
Import ListNotations.

(* ================================================================== *)
(** * Loan amortization ([ft3.py], [show_amortization]) *)
(* ================================================================== *)

Module Amortization.

Open Scope Q_scope.

(** Repayment frequency offered by the select box. *)
Inductive frequency := Mensuelle | Trimestrielle | Semestrielle | Annuelle.

(** The dictionary [periods_per_year]. *)
Definition periods_per_year (f : frequency) : Z :=
  match f with
  | Mensuelle => 12
  | Trimestrielle => 4
  | Semestrielle => 2
  | Annuelle => 1
  end%Z.

(** Python's [x ** n] for a natural exponent [n]. *)
Fixpoint qpow (x : Q) (n : nat) : Q :=
  match n with
  | O => 1
  | S n' => x * qpow x n'
  end.

(** One row [[Période, Paiement, Capital, Intérêts, Solde]]. *)
Record row := mkRow {
  periode : nat;
  paiement : Q;
  capital : Q;
  interets : Q;
  solde : Q
}.

(** The grace-period loop [for month in range(1, grace_period + 1)]:
    interest only, balance unchanged. *)
Fixpoint grace_loop (rate balance : Q) (month k : nat) : list row :=
  match k with
  | O => []
  | S k' =>
      let interest := balance * (rate / 12) in
      mkRow month interest 0 interest balance
        :: grace_loop rate balance (S month) k'
  end.

(** The repayment loop [for period in range(periods)], [k] periods left,
    starting at [month] with the running [balance]. *)
Fixpoint repay_loop (payment periodic_rate : Q) (month : nat) (balance : Q)
    (k : nat) : list row :=
  match k with
  | O => []
  | S k' =>
      let interest := balance * periodic_rate in
      let principal_payment := payment - interest in
      let balance' := balance - principal_payment in
      mkRow month payment principal_payment interest (Qmax 0 balance')
        :: repay_loop payment periodic_rate (S month) balance' k'
  end.

(** The running balance after [k] periods of the repayment loop. *)
Fixpoint balance_after (payment periodic_rate balance : Q) (k : nat) : Q :=
  match k with
  | O => balance
  | S k' =>
      balance_after payment periodic_rate
        (balance - (payment - balance * periodic_rate)) k'
  end.

Definition Qpos_bool (x : Q) : bool := negb (Qle_bool x 0).

(** [show_amortization] from the selected credit on: [None] when the
    guard [principal > 0 and rate > 0 and term > 0] fails (nothing is
    built), otherwise the rows of the DataFrame. *)
Definition show_amortization (principal rate : Q) (term : Z) (f : frequency)
    (grace_period : nat) : option (list row) :=
  let ppy := periods_per_year f in
  let periods := (term * ppy)%Z in
  let periodic_rate := rate / inject_Z ppy in
  if Qpos_bool principal && Qpos_bool rate && (0 <? term)%Z then
    let x := qpow (1 + periodic_rate) (Z.to_nat periods) in
    let payment := principal * (periodic_rate * x) / (x - 1) in
    Some (grace_loop rate principal 1 grace_period
          ++ repay_loop payment periodic_rate (grace_period + 1) principal
               (Z.to_nat periods))
  else None.

(** Sum of the [Capital] column. *)
Definition sum_capital (sched : list row) : Q :=
  fold_right (fun r acc => capital r + acc) 0 sched.

End Amortization.

(* ================================================================== *)
(** * Net present value ([ft3.py], [calculate_financial_metrics]) *)
(* ================================================================== *)

Module Npv.

Import Amortization.
Open Scope Q_scope.

(** [monthly_rate = 0.08 / 12]. *)
Definition monthly_rate : Q := (8 # 100) / 12.

(** Fallback path: [van = -total_immobilisations]; [for i in range(60):
    van += cash_flow_mensuel / ((1 + monthly_rate) ** (i + 1))]. *)
Definition van_manual (total_immobilisations cash_flow_mensuel : Q) : Q :=
  fold_left
    (fun van i => van + cash_flow_mensuel / qpow (1 + monthly_rate) (i + 1))
    (seq 0 60) (- total_immobilisations).

(** Exceptions the VAN block can raise. *)
Inductive exc := NameError | LibraryError.

(** A Python computation that returns a value or raises. *)
Inductive result (A : Type) := Ok (a : A) | Raise (e : exc).
Arguments Ok {A} a.
Arguments Raise {A} e.

(** The module-level binding of the name [PYFINANCE_AVAILABLE]: [None]
    when the name is unbound. [ft3.py] only reads it (lines 2827 and
    6013); no statement of the module assigns it, and the [try: import
    pyfinance as pf / except ImportError] of lines 12-16 sets no flag. *)
Definition PYFINANCE_AVAILABLE : option bool := None.

Section VanBlock.

(** [pf.npv(rate=..., values=...)] of the [pyfinance] package, left
    abstract: it may return a value or raise. *)
Variable pf_npv : Q -> list Q -> result Q.

(** The library branch: [cash_flows = [-total_immobilisations] +
    [cash_flow_mensuel] * 60], then [pf.npv(rate=monthly_rate, ...)]. *)
Definition van_library (total_immobilisations cash_flow_mensuel : Q) : result Q :=
  pf_npv monthly_rate ((- total_immobilisations) :: repeat cash_flow_mensuel 60).

(** The VAN block of the first definition (lines 2826-2864), evaluated
    with the binding [flag] of [PYFINANCE_AVAILABLE]. Reading an unbound
    name raises [NameError]; no [try] encloses the test. [Some v] is
    [metrics['van'] = v], [None] is [metrics['van'] = None] (the [except:]
    around the library branch). *)
Definition van_block_v1 (flag : option bool)
    (total_immobilisations cash_flow_mensuel : Q) : result (option Q) :=
  match flag with
  | None => Raise NameError
  | Some true =>
      if Qpos_bool cash_flow_mensuel then
        match van_library total_immobilisations cash_flow_mensuel with
        | Ok v => Ok (Some v)
        | Raise _ => Ok None
        end
      else Ok (Some (- total_immobilisations))
  | Some false =>
      if Qpos_bool cash_flow_mensuel
      then Ok (Some (van_manual total_immobilisations cash_flow_mensuel))
      else Ok (Some (- total_immobilisations))
  end.

(** [metrics['van']] as the first [calculate_financial_metrics] (line
    2787) leaves it, or the exception it propagates. *)
Definition calculate_financial_metrics_v1_van
    (total_immobilisations cash_flow_mensuel : Q) : result (option Q) :=
  van_block_v1 PYFINANCE_AVAILABLE total_immobilisations cash_flow_mensuel.

(** The VAN block of the second definition (lines 6012-6050). An
    exception of the library branch is caught there ([metrics['van'] =
    0]); a [NameError] on the flag reaches the outer [except Exception]
    (line 6107), which keeps the initial [metrics['van'] = 0]. *)
Definition van_block_v2 (flag : option bool)
    (total_immobilisations cash_flow_mensuel : Q) : Q :=
  match flag with
  | None => 0
  | Some true =>
      if Qpos_bool cash_flow_mensuel then
        match van_library total_immobilisations cash_flow_mensuel with
        | Ok v => v
        | Raise _ => 0
        end
      else - total_immobilisations
  | Some false =>
      if Qpos_bool cash_flow_mensuel
      then van_manual total_immobilisations cash_flow_mensuel
      else - total_immobilisations
  end.

(** [metrics['van']] as returned by the second [calculate_financial_metrics]
    (line 5947), the binding in effect when [main] runs. *)
Definition calculate_financial_metrics_van
    (total_immobilisations cash_flow_mensuel : Q) : Q :=
  van_block_v2 PYFINANCE_AVAILABLE total_immobilisations cash_flow_mensuel.

End VanBlock.

(** The discounted sum [-I + sum_{i=1}^{60} CF / (1 + 0.08/12)^i] the
    spec names. *)
Definition van_formula (total_immobilisations cash_flow_mensuel : Q) : Q :=
  - total_immobilisations
  + fold_right Qplus 0
      (map (fun i => cash_flow_mensuel / qpow (1 + monthly_rate) i) (seq 1 60)).

(** Sum of [cf / (1 + rate)^i] over the indices [l]. *)
Definition sum_disc (cf rate : Q) (l : list nat) : Q :=
  fold_right Qplus 0 (map (fun i => cf / qpow (1 + rate) i) l).

End Npv.

(* ================================================================== *)
(** * Python values, [float()], [safe_float_convert] and the TVA block *)
(* ================================================================== *)

Module PyFloat.

Open Scope Q_scope.

(** The Python values that reach [float()] and the TVA arithmetic. A
    finite float is kept as its exact rational value. *)
Inductive pyval :=
| PyInt (z : Z)
| PyBool (b : bool)
| PyFloat (q : Q)
| PyStr (s : String.string)
| PyNone.

(** The exceptions that matter here. *)
Inductive exc := ValueError | TypeError | OverflowError | KeyError | ZeroDivisionError.

(** A computation that returns a value or raises. *)
Inductive result (A : Type) := Ok (a : A) | Raise (e : exc).
Arguments Ok {A} a.
Arguments Raise {A} e.

Definition bind {A B} (r : result A) (k : A -> result B) : result B :=
  match r with Ok a => k a | Raise e => Raise e end.

Notation "x <- r ;; k" := (bind r (fun x => k)) (at level 61, r at next level, right associativity).

(** [int.__float__]: round to nearest, ties to even, on a 53-bit
    significand; [OverflowError] when the rounded magnitude reaches 2^1024. *)
Definition round_int_to_double (n : Z) : Z :=
  let a := Z.abs n in
  if (a <? 2 ^ 53)%Z then n
  else
    let k := (Z.log2 a - 52)%Z in
    let m := (a / 2 ^ k)%Z in
    let r := (a mod 2 ^ k)%Z in
    let half := (2 ^ (k - 1))%Z in
    let m' := if (half <? r)%Z then (m + 1)%Z
              else if (r =? half)%Z then (if Z.odd m then (m + 1)%Z else m)
              else m in
    (Z.sgn n * m' * 2 ^ k)%Z.

Definition float_of_int (n : Z) : result Q :=
  let v := round_int_to_double n in
  if (2 ^ 1024 <=? Z.abs v)%Z then Raise OverflowError else Ok (inject_Z v).

(** Decimal literals [[+|-]digits[.digits]] of [float(str)]; every other
    string raises [ValueError]. (Exponents, [inf]/[nan], surrounding
    blanks and underscores, which Python also accepts, are not modelled.) *)
Fixpoint parse_digits (s : String.string) (acc : Z) (scale : Z) (frac : bool)
    (seen : bool) : option Q :=
  match s with
  | String.EmptyString => if seen then Some (acc # Z.to_pos scale) else None
  | String.String c rest =>
      let n := Ascii.nat_of_ascii c in
      if (48 <=? n)%nat && (n <=? 57)%nat then
        parse_digits rest (acc * 10 + Z.of_nat (n - 48))
          (if frac then scale * 10 else scale)%Z frac true
      else if (n =? 46)%nat && negb frac then
        parse_digits rest acc scale true seen
      else None
  end.

Definition parse_float_literal (s : String.string) : option Q :=
  match s with
  | String.String "-"%char rest => option_map Qopp (parse_digits rest 0 1 false false)
  | String.String "+"%char rest => parse_digits rest 0 1 false false
  | _ => parse_digits s 0 1 false false
  end.

(** The builtin [float(x)]. *)
Definition py_float (x : pyval) : result Q :=
  match x with
  | PyInt z => float_of_int z
  | PyBool b => Ok (if b then 1 else 0)
  | PyFloat q => Ok q
  | PyStr s => match parse_float_literal s with
               | Some q => Ok q
               | None => Raise ValueError
               end
  | PyNone => Raise TypeError
  end.

(** [safe_float_convert]: [try: return float(x)] [except (ValueError,
    TypeError): return 0.0]; any other exception propagates. *)
Definition safe_float_convert (x : pyval) : result Q :=
  match py_float x with
  | Ok v => Ok v
  | Raise ValueError => Ok 0
  | Raise TypeError => Ok 0
  | Raise e => Raise e
  end.

(** A row of the imported DataFrame; a missing column is [None]. *)
Record df_row := mkDfRow {
  row_type : String.string;
  row_montant : option pyval;
  row_taux_tva : option pyval
}.

(** [x[col]]: [KeyError] on a missing column. *)
Definition getitem (c : option pyval) : result pyval :=
  match c with Some v => Ok v | None => Raise KeyError end.

(** Numeric operand of [*] and [/]: ints, bools and floats; anything else
    raises [TypeError]. *)
Definition as_number (v : pyval) : result Q :=
  match v with
  | PyInt z => Ok (inject_Z z)
  | PyBool b => Ok (if b then 1 else 0)
  | PyFloat q => Ok q
  | _ => Raise TypeError
  end.

(** [lambda x: x['montant'] * (x['taux_tva']/100)]. *)
Definition vat_of_row (x : df_row) : result Q :=
  m <- getitem (row_montant x) ;;
  t <- getitem (row_taux_tva x) ;;
  mq <- as_number m ;;
  tq <- as_number t ;;
  Ok (mq * (tq / 100)).

(** [df[df['type'] == ty].apply(..., axis=1).sum()]. *)
Fixpoint vat_sum (ty : String.string) (rows : list df_row) : result Q :=
  match rows with
  | [] => Ok 0
  | x :: rest =>
      if String.eqb (row_type x) ty then
        v <- vat_of_row x ;; s <- vat_sum ty rest ;; Ok (v + s)
      else vat_sum ty rest
  end.

(** The body of the [try] of the TVA block. *)
Definition tva_try (rows : list df_row) : result (Q * Q * Q * Q) :=
  c <- vat_sum "ventes" rows ;;
  a <- vat_sum "charges" rows ;;
  i <- vat_sum "immobilisation" rows ;;
  Ok (c, a, i, c - a - i).

(** The whole block: the bare [except:] replaces any exception by four
    zeros, so the block itself always returns. *)
Definition tva_block (rows : list df_row) : Q * Q * Q * Q :=
  match tva_try rows with
  | Ok r => r
  | Raise _ => (0, 0, 0, 0)
  end.

End PyFloat.

(* ================================================================== *)
(** * WiFi analyzer helpers ([wifi_analyzer.py]) *)
(* ================================================================== *)

Module FloatRange.

(** Python floats are IEEE doubles rounded to nearest: an exact result of
    at least [2^1024 - 2^970], half a unit in the last place above the
    largest finite double [2^1024 - 2^971], rounds to infinity, and
    [math.pow] and [float ** int] then raise [OverflowError]. *)
Definition float_overflow_limit : Z := (2 ^ 1024 - 2 ^ 970)%Z.

End FloatRange.

Module Rssi.

Import FloatRange.
Open Scope R_scope.

(** [math.pow(x, y)] on finite arguments: [None] is the [OverflowError]
    it raises when the result does not fit a float. *)
Definition math_pow (x y : R) : option R :=
  if Rle_dec (IZR float_overflow_limit) (Rpower x y) then None
  else Some (Rpower x y).

(** [calculate_rssi_distance(rssi, frequency)]: [None] is the
    [OverflowError] of [math.pow(10, (rssi_ref - rssi) / (10 *
    path_loss_exponent))]; the function has no [try]. *)
Definition calculate_rssi_distance_checked (rssi frequency : R) : option R :=
  if Req_dec_T rssi 0 then Some (-1)
  else
    let rssi_ref := -30 in
    let path_loss_exponent := if Req_dec_T frequency (24 / 10) then 25 / 10 else 3 in
    if Rle_dec rssi_ref rssi then Some 1
    else
      match math_pow 10 ((rssi_ref - rssi) / (10 * path_loss_exponent)) with
      | None => None
      | Some distance =>
          let distance := if Req_dec_T frequency 5 then distance * (8 / 10) else distance in
          Some (Rmin distance 100)
      end.

(** The value [calculate_rssi_distance(rssi, frequency)] returns when
    [math.pow] does not raise ([Rpower 10 e] for [math.pow(10, e)]); see
    [calculate_rssi_distance_checked] and [RssiFacts.checked_value]. *)
Definition calculate_rssi_distance (rssi frequency : R) : R :=
  if Req_dec_T rssi 0 then -1
  else
    let rssi_ref := -30 in
    let path_loss_exponent := if Req_dec_T frequency (24 / 10) then 25 / 10 else 3 in
    if Rle_dec rssi_ref rssi then 1
    else
      let distance := Rpower 10 ((rssi_ref - rssi) / (10 * path_loss_exponent)) in
      let distance := if Req_dec_T frequency 5 then distance * (8 / 10) else distance in
      Rmin distance 100.

End Rssi.

Module Signal.

Open Scope Q_scope.

(** [_convert_signal_percent_to_rssi(signal_percent)]. *)
Definition convert_signal_percent_to_rssi (signal_percent : Z) : Q :=
  if (signal_percent <=? 0)%Z then -90
  else if (100 <=? signal_percent)%Z then -30
  else -90 + inject_Z signal_percent * (6 # 10).

End Signal.

Module Trilateration.

Import FloatRange.
Open Scope Q_scope.

(** A value of a device dictionary: a Python [int], a (finite) [float],
    or anything else (a string, [None], ...). *)
Inductive pyval := VInt (z : Z) | VFloat (q : Q) | VOther.

(** A device dictionary, as an association list. *)
Definition device := list (String.string * pyval).

Fixpoint dict_lookup (d : device) (k : String.string) : option pyval :=
  match d with
  | [] => None
  | (k', v) :: rest => if String.eqb k k' then Some v else dict_lookup rest k
  end.

(** [d.get(k, default)]. *)
Definition dict_get (d : device) (k : String.string) (default : pyval) : pyval :=
  match dict_lookup d k with Some v => v | None => default end.

(** Exceptions [_trilaterate] can raise: its [try] only catches
    [ZeroDivisionError]. *)
Inductive exc := OverflowError | TypeError.

Inductive result (A : Type) := Ok (a : A) | Raise (e : exc).
Arguments Ok {A} a.
Arguments Raise {A} e.

(** [v ** 2]: exact on an [int]; on a [float], [OverflowError] when the
    square does not fit a float; [TypeError] on a non-number. *)
Definition py_sq (v : pyval) : result Q :=
  match v with
  | VInt z => Ok (inject_Z (z * z))
  | VFloat q =>
      if Qle_bool (inject_Z float_overflow_limit) (q * q) then Raise OverflowError
      else Ok (q * q)
  | VOther => Raise TypeError
  end.

(** [_trilaterate(device, access_points)]; the access points are only
    counted, never read. The squares [r1**2], [r2**2] (for [C]) and
    [r2**2], [r3**2] (for [F]) are taken in that order, outside the
    [try]; a division by zero inside it returns [(25.0, 25.0)]. *)
Definition trilaterate {AP : Type} (dev : device) (access_points : list AP) : result (Q * Q) :=
  if (List.length access_points <? 3)%nat then Ok (0, 0)
  else
    let '(p1x, p1y) := (0, 0) in
    let '(p2x, p2y) := (100, 0) in
    let '(p3x, p3y) := (50, 866 # 10) in
    let r1 := dict_get dev "distance" (VInt 10) in
    let r2 := dict_get dev "distance" (VInt 15) in
    let r3 := dict_get dev "distance" (VInt 20) in
    let A := 2 * (p2x - p1x) in
    let B := 2 * (p2y - p1y) in
    match py_sq r1, py_sq r2 with
    | Raise e, _ | _, Raise e => Raise e
    | Ok r1sq, Ok r2sq =>
    let C := r1sq - r2sq - p1x * p1x + p2x * p2x - p1y * p1y + p2y * p2y in
    let D := 2 * (p3x - p2x) in
    let E := 2 * (p3y - p2y) in
    match py_sq r2, py_sq r3 with
    | Raise e, _ | _, Raise e => Raise e
    | Ok r2sq', Ok r3sq =>
    let F := r2sq' - r3sq - p2x * p2x + p3x * p3x - p2y * p2y + p3y * p3y in
    if Qeq_bool (E * A - B * D) 0 then Ok (25, 25)
    else
      let x := (C * E - F * B) / (E * A - B * D) in
      if Qeq_bool (A * E - B * D) 0 then Ok (25, 25)
      else Ok (x, (A * F - D * C) / (A * E - B * D))
    end
    end.

(** [v ** 2] returns: [v] is an [int], or a [float] whose square fits. *)
Definition sq_fits (v : pyval) : Prop :=
  match v with
  | VInt _ => True
  | VFloat q => q * q < inject_Z float_overflow_limit
  | VOther => False
  end.

End Trilateration.

Module Monitoring.

(** One history entry [{'timestamp', 'access_points', 'devices'}]. *)
Record snapshot := mkSnapshot {
  timestamp : nat;
  n_access_points : nat;
  n_devices : nat
}.

Record analyzer := mkAnalyzer {
  monitoring : bool;
  history : list snapshot
}.

(** [self.history.append(s)] then [if len(self.history) > 100:
    self.history.pop(0)]. *)
Definition store_history (s : snapshot) (h : list snapshot) : list snapshot :=
  let h' := h ++ [s] in
  if (100 <? List.length h')%nat then List.tl h' else h'.

(** One iteration of [monitor_loop] while [self.monitoring] holds: the
    scan yields a snapshot that is stored, or an exception is raised
    before the [append] and caught, leaving the history as it was. *)
Inductive monitor_step : analyzer -> analyzer -> Prop :=
| monitor_store (a : analyzer) (s : snapshot) :
    monitoring a = true ->
    monitor_step a (mkAnalyzer (monitoring a) (store_history s (history a)))
| monitor_error (a : analyzer) :
    monitoring a = true ->
    monitor_step a a.

(** Any number of iterations. *)
Inductive monitor_steps : analyzer -> analyzer -> Prop :=
| steps_refl (a : analyzer) : monitor_steps a a
| steps_trans (a b c : analyzer) :
    monitor_step a b -> monitor_steps b c -> monitor_steps a c.

End Monitoring.

(* ================================================================== *)
(** * Persistence of form data ([ft3.py] and [p4.py]) *)
(* ================================================================== *)

Module Persistence.

Import stdpp.base stdpp.gmap stdpp.strings.

(** Form contents: a dictionary from widget keys to entered strings. *)
Abbreviation form := (gmap string string).

(** [p4.py]: the module-level dict [saved_data] and the contents of
    [SAVE_FILE] on disk ([None] while the file does not exist). *)
Record p4_state := mkP4 {
  saved_data : form;
  save_file : option form
}.

(** [save_data(data)]: [json.dump] of the whole dict into [SAVE_FILE]. *)
Definition p4_save_data (data : form) (st : p4_state) : p4_state :=
  mkP4 (saved_data st) (Some data).

(** [create_input(label, default_value, key)] where the user has typed
    [user_input] into the widget: when it differs from
    [saved_data.get(key)] the dict is updated and written to disk. *)
Definition create_input (key user_input : string) (st : p4_state)
    : p4_state * string :=
  if decide (saved_data st !! key = Some user_input) then (st, user_input)
  else
    let sd := <[key := user_input]> (saved_data st) in
    (p4_save_data sd (mkP4 sd (save_file st)), user_input).

(** [ft3.py]: [st.session_state] (the exported keys) and the files of
    [saved_data/], by file name. *)
Record ft3_state := mkFt3 {
  session : form;
  saved_files : gmap string form
}.

(** The interactions of [ft3.py]: a widget that writes into
    [st.session_state], or the ["Sauvegarder"] button, whose callback
    [save_data()] writes [f"{save_dir}/{company_name}_{timestamp}.json"]. *)
Inductive ft3_event :=
| WidgetEdit (key value : string)
| ClickSave (company_name timestamp : string).

Definition ft3_save_data (company_name timestamp : string) (st : ft3_state) : ft3_state :=
  let filename := "saved_data/" +:+ company_name +:+ "_" +:+ timestamp +:+ ".json" in
  mkFt3 (session st) (<[filename := session st]> (saved_files st)).

Definition ft3_step (st : ft3_state) (ev : ft3_event) : ft3_state :=
  match ev with
  | WidgetEdit k v => mkFt3 (<[k := v]> (session st)) (saved_files st)
  | ClickSave c t => ft3_save_data c t st
  end.

End Persistence.

(* ================================================================== *)
(** * Further columns of the amortization table ([show_amortization]) *)
(* ================================================================== *)

Module AmortizationColumns.

Import Amortization.
Open Scope Q_scope.

(** The periodic payment [payment] computed by [show_amortization]. *)
Definition annuity_payment (principal rate : Q) (term : Z) (f : frequency) : Q :=
  let ppy := periods_per_year f in
  let periodic_rate := rate / inject_Z ppy in
  let x := qpow (1 + periodic_rate) (Z.to_nat (term * ppy)) in
  principal * (periodic_rate * x) / (x - 1).

(** Sum of the [Intérêts] column ([total_interest]). *)
Definition sum_interets (sched : list row) : Q :=
  fold_right (fun r acc => interets r + acc) 0 sched.

(** [df["Année"] = (df["Période"] - 1) // 12 + 1] (monthly schedules). *)
Definition annee (periode : Z) : Z := ((periode - 1) / 12 + 1)%Z.

(** [df["Trimestre"] = ((df["Période"] - 1) % 12) // 3 + 1]. *)
Definition trimestre (periode : Z) : Z := (((periode - 1) mod 12) / 3 + 1)%Z.

End AmortizationColumns.

(* ================================================================== *)
(** * Successive scans of the monitoring loop *)
(* ================================================================== *)

Module MonitoringWindow.

Import Monitoring.

(** The history after storing the snapshots [ss] in order, starting from
    [h]. *)
Definition store_all (ss : list snapshot) (h : list snapshot) : list snapshot :=
  fold_left (fun acc s => store_history s acc) ss h.

(** Python's [l[-k:]] for [k >= 1]; the whole list when it is shorter. *)
Definition lastn {A : Type} (k : nat) (l : list A) : list A :=
  skipn (List.length l - k) l.

End MonitoringWindow.

(* ================================================================== *)
(** * Successive inputs of [p4.py] *)
(* ================================================================== *)

Module P4Session.

Import stdpp.base stdpp.gmap stdpp.strings Persistence.

(** A page run in which the user has typed [v] into the widget [k], for
    each [(k, v)] of [inputs] in order. *)
Definition p4_run (inputs : list (string * string)) (st : p4_state) : p4_state :=
  fold_left (fun acc kv => fst (create_input (fst kv) (snd kv) acc)) inputs st.

(** The state right after the module is imported: [saved_data =
    load_data()], so either the dict read back from [SAVE_FILE], or [{}]
    while the file does not exist. *)
Definition p4_loaded (st : p4_state) : Prop :=
  save_file st = Some (saved_data st) \/ (save_file st = None /\ saved_data st = ∅).

End P4Session.

(* ================================================================== *)
(** * List helpers of [generate_pdf_report] ([ft3.py]) *)
(* ================================================================== *)

Module PdfListHelpers.

Import stdpp.base stdpp.gmap.

Section Helpers.

Context {A : Type}.

(** Python list objects live in a heap, by address; an argument is either
    a list object or a value of another type ([None], a dict, ...). *)
Abbreviation heap := (gmap nat (list A)).

Inductive pyarg :=
| PList (addr : nat)
| PNotList.

(** [safe_list_get(lst, idx, default)]. *)
Definition safe_list_get (h : heap) (lst : pyarg) (idx : Z) (default : A) : A :=
  match lst with
  | PNotList => default
  | PList a =>
      match h !! a with
      | None => default
      | Some xs =>
          if (idx <? 0)%Z || (Z.of_nat (List.length xs) <=? idx)%Z then default
          else nth (Z.to_nat idx) xs default
      end
  end.

(** [while len(lst) < length: lst.append(default_value)], each round
    appending to the same object. *)
Fixpoint pad_loop (fuel length : nat) (default_value : A) (xs : list A) : list A :=
  match fuel with
  | O => xs
  | S f =>
      if (List.length xs <? length)%nat
      then pad_loop f length default_value (xs ++ [default_value])
      else xs
  end.

(** What [normalize_list] returns: the argument object itself, or a new
    list ([[default_value] * length] or the slice [lst[:length]]). *)
Inductive nl_result :=
| Same (addr : nat)
| Fresh (xs : list A).

(** [normalize_list(lst, length, default_value)]: a longer list is
    replaced by a slice (a copy); a shorter one is padded by [append], in
    place. *)
Definition normalize_list (h : heap) (lst : pyarg) (length : nat) (default_value : A)
    : nl_result * heap :=
  match lst with
  | PNotList => (Fresh (repeat default_value length), h)
  | PList a =>
      match h !! a with
      | None => (Fresh [], h)
      | Some xs =>
          if (length <? List.length xs)%nat then (Fresh (firstn length xs), h)
          else (Same a, <[a := pad_loop length length default_value xs]> h)
      end
  end.

(** The contents of the returned list in the heap after the call. *)
Definition nl_contents (h : heap) (r : nl_result) : option (list A) :=
  match r with
  | Same a => h !! a
  | Fresh xs => Some xs
  end.

End Helpers.

Arguments pyarg : clear implicits.
Arguments nl_result : clear implicits.

End PdfListHelpers.

(* ================================================================== *)
(** * Network report of [wifi_analyzer.py] *)
(* ================================================================== *)

Module WifiReport.

Import Rssi.
Open Scope string_scope.
Open Scope list_scope.
Open Scope R_scope.

(** ASCII [str.upper()] and [str.lower()] (MAC addresses, security
    labels). *)
Definition ascii_upper (c : ascii) : ascii :=
  let n := nat_of_ascii c in
  if (97 <=? n)%nat && (n <=? 122)%nat then ascii_of_nat (n - 32) else c.

Definition ascii_lower (c : ascii) : ascii :=
  let n := nat_of_ascii c in
  if (65 <=? n)%nat && (n <=? 90)%nat then ascii_of_nat (n + 32) else c.

Fixpoint str_map (f : ascii -> ascii) (s : string) : string :=
  match s with
  | EmptyString => EmptyString
  | String c s' => String (f c) (str_map f s')
  end.

Definition upper := str_map ascii_upper.
Definition lower := str_map ascii_lower.

(** Python's [needle in haystack] on strings. *)
Fixpoint contains (needle haystack : string) : bool :=
  String.prefix needle haystack
  || match haystack with
     | EmptyString => false
     | String _ h' => contains needle h'
     end.

(** [d.get(key, default)] for a key that may be absent. *)
Definition get_default {A : Type} (v : option A) (default : A) : A :=
  match v with Some x => x | None => default end.

(** An access-point profile: [security] and [distance] may be absent,
    [rssi] and [frequency] are always set by [get_wifi_profiles]. *)
Record profile := mkProfile {
  p_security : option string;
  p_rssi : R;
  p_frequency : R;
  p_distance : option R
}.

(** The five counters of [_analyze_security]. *)
Record counters := mkCounters {
  open_networks : nat;
  wep_networks : nat;
  wpa_networks : nat;
  wpa2_networks : nat;
  wpa3_networks : nat
}.

Definition counters0 := mkCounters 0 0 0 0 0.

(** The body of the [for profile in profiles] loop. *)
Definition count_profile (c : counters) (p : profile) : counters :=
  let security := lower (get_default (p_security p) "Unknown") in
  if contains "open" security || String.eqb security "none" then
    mkCounters (S (open_networks c)) (wep_networks c) (wpa_networks c)
      (wpa2_networks c) (wpa3_networks c)
  else if contains "wep" security then
    mkCounters (open_networks c) (S (wep_networks c)) (wpa_networks c)
      (wpa2_networks c) (wpa3_networks c)
  else if contains "wpa3" security then
    mkCounters (open_networks c) (wep_networks c) (wpa_networks c)
      (wpa2_networks c) (S (wpa3_networks c))
  else if contains "wpa2" security then
    mkCounters (open_networks c) (wep_networks c) (wpa_networks c)
      (S (wpa2_networks c)) (wpa3_networks c)
  else if contains "wpa" security then
    mkCounters (open_networks c) (wep_networks c) (S (wpa_networks c))
      (wpa2_networks c) (wpa3_networks c)
  else c.

(** [_analyze_security(profiles)]: the counters and [security_score]. *)
Definition analyze_security (profiles : list profile) : counters * R :=
  let c := fold_left count_profile profiles counters0 in
  let total_networks := List.length profiles in
  let score :=
    if (0 <? total_networks)%nat then
      INR (wpa2_networks c + wpa3_networks c) / INR total_networks * 100
    else 0 in
  (c, score).

(** The messages of [_generate_recommendations], by their f-string. *)
Inductive recommendation :=
| RecSecureOpen (n : nat)        (* "Secure {n} open network(s) with WPA2/WPA3 encryption" *)
| RecReposition (n : nat)        (* "Consider repositioning {n} access point(s) with weak signals" *)
| RecSegmentation                (* "High device count detected - consider network segmentation" *)
| RecAddAccessPoints             (* "Consider adding additional access points for better coverage" *)
| RecOptimal.                    (* "Network configuration appears optimal" *)

Definition rec_open_count (profiles : list profile) : nat :=
  List.length (filter (fun p => contains "open" (lower (get_default (p_security p) ""))) profiles).

Definition rec_weak_count (profiles : list profile) : nat :=
  List.length (filter (fun p => if Rlt_dec (p_rssi p) (-70) then true else false) profiles).

(** [_generate_recommendations(profiles, devices)]; only [len(devices)]
    is used. *)
Definition generate_recommendations (profiles : list profile) (n_devices : nat)
    : list recommendation :=
  let recommendations := [] in
  let open_networks := rec_open_count profiles in
  let recommendations :=
    if (0 <? open_networks)%nat then recommendations ++ [RecSecureOpen open_networks]
    else recommendations in
  let weak_signals := rec_weak_count profiles in
  let recommendations :=
    if (0 <? weak_signals)%nat then recommendations ++ [RecReposition weak_signals]
    else recommendations in
  let recommendations :=
    if (20 <? n_devices)%nat then recommendations ++ [RecSegmentation]
    else recommendations in
  let recommendations :=
    if (List.length profiles =? 1)%nat then recommendations ++ [RecAddAccessPoints]
    else recommendations in
  match recommendations with
  | [] => [RecOptimal]
  | _ => recommendations
  end.

(** [_calculate_coverage_area(profiles)]. *)
Definition calculate_coverage_area (profiles : list profile) : R :=
  match profiles with
  | [] => 0
  | _ =>
      fold_left (fun total_area p =>
                   let distance := get_default (p_distance p) 0 in
                   total_area + PI * distance ^ 2) profiles 0
  end.

(** [profile['distance'] = self.calculate_rssi_distance(profile['rssi'],
    profile['frequency'])], as in [generate_network_report]. *)
Definition with_distance (p : profile) : profile :=
  mkProfile (p_security p) (p_rssi p) (p_frequency p)
    (Some (calculate_rssi_distance (p_rssi p) (p_frequency p))).

(** [_load_mac_vendors()]. *)
Definition mac_vendors : list (string * string) :=
  [("00:11:22", "Sample Vendor 1"); ("66:77:88", "Sample Vendor 2");
   ("00:1B:63", "Apple"); ("00:26:BB", "Apple"); ("28:CF:E9", "Apple");
   ("3C:07:54", "Apple"); ("00:50:56", "VMware");
   ("08:00:27", "Oracle VirtualBox"); ("52:54:00", "QEMU/KVM")].

Fixpoint dict_get_str (d : list (string * string)) (k : string) : option string :=
  match d with
  | [] => None
  | (k', v) :: d' => if String.eqb k k' then Some v else dict_get_str d' k
  end.

(** [_get_vendor_from_mac(mac_address)]. *)
Definition get_vendor_from_mac (mac_address : string) : string :=
  if String.eqb mac_address "" || String.eqb mac_address "Unknown" then "Unknown"
  else
    let oui := upper (substring 0 8 mac_address) in
    get_default (dict_get_str mac_vendors oui) "Unknown Vendor".

End WifiReport.

(* ================================================================== *)
(** * [convert_to_serializable] ([ft3.py]) *)
(* ================================================================== *)

Module Serializable.

Local Set Warnings "-register-all".
Open Scope Q_scope.

(** The Python values [convert_to_serializable] distinguishes. Dict keys
    are strings; a [datetime] or [pd.Timestamp] carries its
    [strftime("%Y-%m-%d %H:%M:%S")], an arbitrary other object its
    [str(obj)]. An array carries the elements [tolist()] returns; a
    DataFrame its columns, each a list of (index, value) cells; a Series
    its (index, value) items. *)
Inductive pyobj :=
| ODatetime (formatted : string)
| ONdarray (cells : list pyobj)
| OFrame (cols : list (string * list (string * pyobj)))
| OSeries (items : list (string * pyobj))
| ODict (items : list (string * pyobj))
| OList (items : list pyobj)
| OInt (z : Z)
| OFloat (q : Q)
| OStr (s : string)
| OBool (b : bool)
| ONone
| OOther (repr : string).

(** [convert_to_serializable(obj)]: [tolist()] and [to_dict()] return
    their contents as they are, without converting them further. *)
Fixpoint convert_to_serializable (obj : pyobj) : pyobj :=
  match obj with
  | ODatetime formatted => OStr formatted
  | ONdarray cells => OList cells
  | OFrame cols => ODict (map (fun '(c, col) => (c, ODict col)) cols)
  | OSeries items => ODict items
  | ODict items => ODict (map (fun '(k, v) => (k, convert_to_serializable v)) items)
  | OList items => OList (map convert_to_serializable items)
  | OInt _ | OFloat _ | OStr _ | OBool _ | ONone => obj
  | OOther repr => OStr repr
  end.

(** Values [json.dumps] accepts without a [default] hook. *)
Fixpoint json_ready (obj : pyobj) : bool :=
  match obj with
  | ODict items => forallb (fun kv => json_ready (snd kv)) items
  | OList items => forallb json_ready items
  | OInt _ | OFloat _ | OStr _ | OBool _ | ONone => true
  | _ => false
  end.

(** Every array, DataFrame and Series inside [obj] holds only
    JSON-ready cells. *)
Fixpoint cells_ready (obj : pyobj) : bool :=
  match obj with
  | ONdarray cells => forallb json_ready cells
  | OFrame cols => forallb (fun c => forallb (fun kv => json_ready (snd kv)) (snd c)) cols
  | OSeries items => forallb (fun kv => json_ready (snd kv)) items
  | ODict items => forallb (fun kv => cells_ready (snd kv)) items
  | OList items => forallb cells_ready items
  | _ => true
  end.

End Serializable.

(* ================================================================== *)
(** * Properties of the amortization table *)
(* ================================================================== *)

Module AmortizationFacts.

Import Amortization.
Open Scope Q_scope.

(** A 2-year annual credit of 1000 at 10%: payment 576.19..., and the
    capital column sums to 1000. *)
Example amortization_small :
  match show_amortization 1000 (1#10) 2 Annuelle 0 with
  | Some s => sum_capital s == 1000
  | None => False
  end.
Proof. vm_compute. reflexivity. Qed.

Lemma Qpos_bool_true (x : Q) : 0 < x -> Qpos_bool x = true.
Proof.
  intros H. unfold Qpos_bool. destruct (Qle_bool x 0) eqn:E; [|reflexivity].
  apply Qle_bool_iff in E. exfalso. apply (Qlt_not_le _ _ H E).
Qed.

Lemma sum_capital_app (s1 s2 : list row) :
  sum_capital (s1 ++ s2) == sum_capital s1 + sum_capital s2.
Proof.
  induction s1 as [|r s1 IH]; simpl.
  - ring.
  - unfold sum_capital in *. simpl. rewrite IH. ring.
Qed.

Lemma sum_capital_grace (rate balance : Q) (month k : nat) :
  sum_capital (grace_loop rate balance month k) == 0.
Proof.
  revert month. induction k as [|k IH]; intros month; simpl.
  - reflexivity.
  - unfold sum_capital in *. simpl. rewrite IH. ring.
Qed.

(** The capital repaid by the loop telescopes to the drop of balance. *)
Lemma sum_capital_repay (payment q : Q) (month : nat) (balance : Q) (k : nat) :
  sum_capital (repay_loop payment q month balance k)
  == balance - balance_after payment q balance k.
Proof.
  revert month balance. induction k as [|k IH]; intros month balance; simpl.
  - unfold sum_capital. simpl. ring.
  - unfold sum_capital in *. simpl. rewrite IH. ring.
Qed.

(** Closed form of the running balance, multiplied out by the rate. *)
Lemma balance_after_closed (payment q balance : Q) (k : nat) :
  balance_after payment q balance k * q
  == balance * q * qpow (1 + q) k - payment * (qpow (1 + q) k - 1).
Proof.
  revert balance. induction k as [|k IH]; intros balance; simpl.
  - ring.
  - rewrite IH. ring.
Qed.

Lemma qpow_ge_1 (q : Q) (n : nat) : 0 < q -> 1 <= qpow (1 + q) n.
Proof.
  intros Hq. induction n as [|n IH]; simpl.
  - apply Qle_refl.
  - Lqa.nra.
Qed.

Lemma qpow_gt_1 (q : Q) (n : nat) : 0 < q -> (0 < n)%nat -> 1 < qpow (1 + q) n.
Proof.
  intros Hq Hn. destruct n as [|n]; [inversion Hn|]. simpl.
  pose proof (qpow_ge_1 q n Hq). Lqa.nra.
Qed.

(** With the annuity payment, the balance after the last period is 0. *)
Lemma balance_after_annuity (P q : Q) (n : nat) :
  0 < q -> (0 < n)%nat ->
  balance_after (P * (q * qpow (1 + q) n) / (qpow (1 + q) n - 1)) q P n == 0.
Proof.
  intros Hq Hn.
  pose proof (qpow_gt_1 q n Hq Hn) as Hx.
  set (x := qpow (1 + q) n) in *.
  assert (Hx1 : ~ x - 1 == 0) by (intro E; Lqa.lra).
  assert (Hq0 : ~ q == 0) by (intro E; Lqa.lra).
  pose proof (balance_after_closed (P * (q * x) / (x - 1)) q P n) as Hc.
  fold x in Hc.
  assert (Hz : balance_after (P * (q * x) / (x - 1)) q P n * q == 0).
  { rewrite Hc. field. exact Hx1. }
  set (b := balance_after (P * (q * x) / (x - 1)) q P n) in *.
  assert (b == b * q / q) as -> by (field; exact Hq0).
  rewrite Hz. field. exact Hq0.
Qed.

Lemma periodic_rate_pos (rate : Q) (f : frequency) :
  0 < rate -> 0 < rate / inject_Z (periods_per_year f).
Proof.
  intros H. destruct f; simpl; unfold Qdiv; apply Qmult_lt_0_compat; try exact H;
  reflexivity.
Qed.

Lemma repay_solde_nonneg (payment q : Q) (month : nat) (balance : Q) (k : nat) :
  Forall (fun r => 0 <= solde r) (repay_loop payment q month balance k).
Proof.
  revert month balance. induction k as [|k IH]; intros month balance; simpl.
  - constructor.
  - constructor; [apply Q.le_max_l | apply IH].
Qed.

Lemma grace_solde_nonneg (rate balance : Q) (month k : nat) :
  0 <= balance -> Forall (fun r => 0 <= solde r) (grace_loop rate balance month k).
Proof.
  intros Hb. revert month. induction k as [|k IH]; intros month; simpl.
  - constructor.
  - constructor; [exact Hb | apply IH].
Qed.

Lemma periods_pos (term : Z) (f : frequency) :
  (0 < term)%Z -> (0 < Z.to_nat (term * periods_per_year f))%nat.
Proof. intros H. destruct f; simpl; lia. Qed.

(** Claim C1. For a credit with principal [P > 0], annual rate
    [rate > 0] and term [term > 0], any repayment frequency and no grace
    period, [show_amortization] builds a schedule whose [Capital] column
    sums exactly to [P] (exact rational arithmetic). *)
Theorem amortization_capital_sum (P rate : Q) (term : Z) (f : frequency)
    (HP : 0 < P) (Hr : 0 < rate) (Ht : (0 < term)%Z) :
  exists sched, show_amortization P rate term f 0 = Some sched
                /\ sum_capital sched == P.
Proof.
  unfold show_amortization.
  rewrite (Qpos_bool_true P HP), (Qpos_bool_true rate Hr).
  apply Z.ltb_lt in Ht as Htb. rewrite Htb. simpl andb. cbv zeta.
  eexists. split; [reflexivity|].
  rewrite sum_capital_app, sum_capital_grace, sum_capital_repay.
  rewrite balance_after_annuity.
  - ring.
  - apply periodic_rate_pos, Hr.
  - apply periods_pos, Ht.
Qed.

Lemma amortization_capital_sum_witness :
  0 < 1000 /\ 0 < 1#10 /\ (0 < 2)%Z /\
  exists sched, show_amortization 1000 (1#10) 2 Mensuelle 0 = Some sched
                /\ sum_capital sched == 1000.
Proof.
  split; [reflexivity|]. split; [reflexivity|]. split; [reflexivity|].
  apply amortization_capital_sum; reflexivity.
Defined.

(** Claim C2. For principal, rate and term all positive (any frequency,
    any grace period), the schedule is built and every [Solde] entry it
    records is non-negative. *)
Theorem amortization_solde_nonneg (P rate : Q) (term : Z) (f : frequency)
    (grace_period : nat) (HP : 0 < P) (Hr : 0 < rate) (Ht : (0 < term)%Z) :
  exists sched, show_amortization P rate term f grace_period = Some sched
                /\ Forall (fun r => 0 <= solde r) sched.
Proof.
  unfold show_amortization.
  rewrite (Qpos_bool_true P HP), (Qpos_bool_true rate Hr).
  apply Z.ltb_lt in Ht as Htb. rewrite Htb. simpl andb. cbv zeta.
  eexists. split; [reflexivity|].
  apply Forall_app. split.
  - apply grace_solde_nonneg. apply Qlt_le_weak, HP.
  - apply repay_solde_nonneg.
Qed.

Lemma amortization_solde_nonneg_witness :
  0 < 5000 /\ 0 < 7#100 /\ (0 < 3)%Z /\
  exists sched, show_amortization 5000 (7#100) 3 Trimestrielle 6 = Some sched
                /\ Forall (fun r => 0 <= solde r) sched.
Proof.
  split; [reflexivity|]. split; [reflexivity|]. split; [reflexivity|].
  apply amortization_solde_nonneg; reflexivity.
Defined.

End AmortizationFacts.

(* ================================================================== *)
(** * Properties of the NPV computation *)
(* ================================================================== *)

Module NpvFacts.

Import Amortization Npv.
Open Scope Q_scope.


(** The manual loop started at index [s] adds the terms [s+1 .. s+n]. *)
Lemma manual_loop_sum (cf rate acc : Q) (s n : nat) :
  fold_left (fun van i => van + cf / qpow (1 + rate) (i + 1)) (seq s n) acc
  == acc + sum_disc cf rate (seq (S s) n).
Proof.
  revert s acc. induction n as [|n IH]; intros s acc; cbn [seq fold_left].
  - unfold sum_disc. cbn [map fold_right]. ring.
  - rewrite IH. unfold sum_disc. cbn [seq map fold_right].
    rewrite Nat.add_1_r. ring.
Qed.

Lemma van_manual_formula (I CF : Q) : van_manual I CF == van_formula I CF.
Proof.
  unfold van_manual, van_formula. rewrite manual_loop_sum. reflexivity.
Qed.

(** Claim C4 fails: neither VAN path of [calculate_financial_metrics]
    runs, because [PYFINANCE_AVAILABLE] is never bound. The first
    definition raises [NameError] at the flag test for every input; the
    live definition returns [metrics['van'] = 0] for every input, whatever
    [pf.npv] does. The fallback loop it skips does compute
    [-I + sum_{i=1}^{60} CF / (1 + 0.08/12)^i], which is positive at
    [I = 120000], [CF = 2500]: there the code reports 0. *)
Theorem van_never_computed :
  (forall pf_npv I CF, calculate_financial_metrics_v1_van pf_npv I CF = Raise NameError)
  /\ (forall pf_npv I CF, calculate_financial_metrics_van pf_npv I CF == 0)
  /\ (forall I CF, van_manual I CF == van_formula I CF)
  /\ 0 < van_formula 120000 2500.
Proof.
  split; [intros; reflexivity|]. split; [intros; reflexivity|]. split.
  - apply van_manual_formula.
  - vm_compute. reflexivity.
Qed.

End NpvFacts.

(* ================================================================== *)
(** * Properties of [safe_float_convert] and the TVA block *)
(* ================================================================== *)

Module PyFloatFacts.

Import PyFloat.
Open Scope Q_scope.

Example float_of_small_int : py_float (PyInt 42) = Ok 42.
Proof. reflexivity. Qed.

Example float_rounds_to_even : py_float (PyInt (2 ^ 53 + 1)) = Ok (inject_Z (2 ^ 53)).
Proof. vm_compute. reflexivity. Qed.

Example float_largest_int :
  py_float (PyInt (2 ^ 1024 - 2 ^ 970 - 1)) = Ok (inject_Z (2 ^ 1024 - 2 ^ 971)).
Proof. vm_compute. reflexivity. Qed.

Example float_overflow_threshold :
  py_float (PyInt (2 ^ 1024 - 2 ^ 970)) = Raise OverflowError.
Proof. vm_compute. reflexivity. Qed.

Example safe_float_of_text : safe_float_convert (PyStr "abc") = Ok 0.
Proof. reflexivity. Qed.

Example safe_float_of_decimal : safe_float_convert (PyStr "-12.5") = Ok (-125 # 10).
Proof. reflexivity. Qed.

Example safe_float_of_none : safe_float_convert PyNone = Ok 0.
Proof. reflexivity. Qed.

(** Claim C7, as stated, fails: [float(10 ** 400)] raises
    [OverflowError], which [except (ValueError, TypeError)] does not
    catch, so the exception escapes [safe_float_convert]. *)
Lemma safe_float_convert_overflow_escapes :
  safe_float_convert (PyInt (10 ^ 400)) = Raise OverflowError.
Proof. vm_compute. reflexivity. Qed.

(** Claim C7 (amended). [safe_float_convert] returns [float(x)] when the
    conversion succeeds, [0.0] when it raises [ValueError] or
    [TypeError], and lets every other exception (such as
    [OverflowError]) propagate; the TVA block never raises and sets all
    four TVA figures to 0 whenever its computation raises. *)
Theorem safe_float_convert_and_tva_fallback :
  (forall x v, py_float x = Ok v -> safe_float_convert x = Ok v)
  /\ (forall x, py_float x = Raise ValueError \/ py_float x = Raise TypeError ->
        safe_float_convert x = Ok 0)
  /\ (forall x e, py_float x = Raise e -> e <> ValueError -> e <> TypeError ->
        safe_float_convert x = Raise e)
  /\ (forall rows e, tva_try rows = Raise e -> tva_block rows = (0, 0, 0, 0))
  /\ (forall rows r, tva_try rows = Ok r -> tva_block rows = r).
Proof.
  unfold safe_float_convert, tva_block.
  split; [|split; [|split; [|split]]].
  - intros x v H. rewrite H. reflexivity.
  - intros x [H | H]; rewrite H; reflexivity.
  - intros x e H H1 H2. rewrite H. destruct e; congruence.
  - intros rows e H. rewrite H. reflexivity.
  - intros rows r H. rewrite H. reflexivity.
Qed.

Lemma safe_float_convert_and_tva_fallback_witness :
  safe_float_convert (PyStr "1.5") = Ok (15 # 10)
  /\ safe_float_convert (PyStr "n/a") = Ok 0
  /\ safe_float_convert (PyInt (2 ^ 1024)) = Raise OverflowError
  /\ tva_block [mkDfRow "ventes" (Some (PyInt 100)) None] = (0, 0, 0, 0).
Proof.
  destruct safe_float_convert_and_tva_fallback as [Hok [Hvt [Hother [Htva _]]]].
  split; [|split; [|split]].
  - apply Hok. reflexivity.
  - apply Hvt. left. reflexivity.
  - apply Hother; [vm_compute; reflexivity | discriminate | discriminate].
  - apply (Htva _ KeyError). reflexivity.
Defined.

End PyFloatFacts.

(* ================================================================== *)
(** * Properties of [calculate_rssi_distance] *)
(* ================================================================== *)

Module RssiFacts.

Import FloatRange Rssi.
Open Scope R_scope.

(** Below the reference, the value of the total model is the
    log-distance formula; from [-30] upwards it is 1, at 0 it is -1. *)
Lemma rssi_distance_value_formula (rssi frequency : R) :
  (rssi < -30 ->
     calculate_rssi_distance rssi frequency =
     Rmin ((if Req_dec_T frequency 5 then 8 / 10 else 1)
           * Rpower 10 ((-30 - rssi)
                        / (10 * (if Req_dec_T frequency (24 / 10) then 25 / 10 else 3))))
          100)
  /\ (-30 <= rssi -> rssi <> 0 -> calculate_rssi_distance rssi frequency = 1)
  /\ (rssi = 0 -> calculate_rssi_distance rssi frequency = -1).
Proof.
  unfold calculate_rssi_distance.
  split; [|split].
  - intros Hlt.
    destruct (Req_dec_T rssi 0) as [E|_]; [Lra.lra|].
    destruct (Rle_dec (-30) rssi) as [Hle|_]; [Lra.lra|].
    destruct (Req_dec_T frequency 5); f_equal; ring.
  - intros Hle Hne.
    destruct (Req_dec_T rssi 0) as [E|_]; [contradiction|].
    destruct (Rle_dec (-30) rssi) as [_|Hn]; [reflexivity|contradiction].
  - intros ->. destruct (Req_dec_T 0 0) as [_|n]; [reflexivity|].
    exfalso; apply n; reflexivity.
Qed.

(** When [math.pow] does not raise, the checked function returns the
    value of the total model. *)
Lemma checked_value (rssi frequency : R) :
  calculate_rssi_distance_checked rssi frequency = None
  \/ calculate_rssi_distance_checked rssi frequency
     = Some (calculate_rssi_distance rssi frequency).
Proof.
  unfold calculate_rssi_distance_checked, calculate_rssi_distance, math_pow.
  destruct (Req_dec_T rssi 0); [right; reflexivity|].
  destruct (Rle_dec (-30) rssi); [right; reflexivity|].
  match goal with |- context [Rle_dec (IZR ?l) ?p] => destruct (Rle_dec (IZR l) p) end;
    [left; reflexivity | right; reflexivity].
Qed.

Lemma limit_gt_10 : 10 < IZR float_overflow_limit.
Proof. apply IZR_lt. vm_compute. reflexivity. Qed.

(** [10^e] fits a float for [e <= 1]. *)
Lemma pow10_below_limit (e : R) : e <= 1 -> Rpower 10 e < IZR float_overflow_limit.
Proof.
  intros He.
  pose proof (Rle_Rpower 10 e 1 ltac:(Lra.lra) He) as H.
  rewrite Rpower_1 in H by Lra.lra.
  pose proof limit_gt_10. Lra.lra.
Qed.

(** [10^e] overflows a float for [e >= 332] ([10^332 > 2^1024]). *)
Lemma pow10_above_limit (e : R) : 332 <= e -> IZR float_overflow_limit <= Rpower 10 e.
Proof.
  intros He.
  assert (E : INR 332 = 332) by (rewrite INR_IZR_INZ; reflexivity).
  assert (He' : INR 332 <= e) by (rewrite E; exact He).
  pose proof (Rle_Rpower 10 (INR 332) e ltac:(Lra.lra) He') as H.
  rewrite Rpower_pow in H by Lra.lra.
  rewrite pow_IZR in H.
  eapply Rle_trans; [|exact H]. apply IZR_le. vm_compute. discriminate.
Qed.

(** Claim C3, corrected. [calculate_rssi_distance] is the log-distance
    formula with reference [-30] dBm and exponent [2.5] at 2.4 GHz, [3.0]
    otherwise, as long as [math.pow] does not overflow: below [-30] it
    returns [min(p, 100)] with [p = 10^((-30 - rssi)/(10 n))], multiplied
    by [0.8] at 5.0 GHz, when [p] fits a float (below
    [2^1024 - 2^970]), and raises [OverflowError] when it does not; from
    [-30] upwards (except 0) it returns [1.0]; at [0] it returns [-1.0]. *)
Theorem rssi_distance_formula_checked (rssi frequency : R) :
  (rssi < -30 ->
     Rpower 10 ((-30 - rssi) / (10 * (if Req_dec_T frequency (24 / 10) then 25 / 10 else 3))) < IZR float_overflow_limit ->
     calculate_rssi_distance_checked rssi frequency =
     Some (Rmin ((if Req_dec_T frequency 5 then 8 / 10 else 1) * Rpower 10 ((-30 - rssi) / (10 * (if Req_dec_T frequency (24 / 10) then 25 / 10 else 3)))) 100))
  /\ (rssi < -30 ->
      IZR float_overflow_limit <= Rpower 10 ((-30 - rssi) / (10 * (if Req_dec_T frequency (24 / 10) then 25 / 10 else 3))) ->
      calculate_rssi_distance_checked rssi frequency = None)
  /\ (-30 <= rssi -> rssi <> 0 -> calculate_rssi_distance_checked rssi frequency = Some 1)
  /\ (rssi = 0 -> calculate_rssi_distance_checked rssi frequency = Some (-1)).
Proof.
  unfold calculate_rssi_distance_checked, math_pow. cbv zeta.
  split; [|split; [|split]].
  - intros Hlt Hp.
    destruct (Req_dec_T rssi 0) as [E|_]; [Lra.lra|].
    destruct (Rle_dec (-30) rssi) as [Hle|_]; [Lra.lra|].
    match goal with |- context [Rle_dec (IZR ?l) ?p] =>
      destruct (Rle_dec (IZR l) p) as [Hq|_]; [Lra.lra|] end.
    destruct (Req_dec_T frequency 5); f_equal; f_equal; ring.
  - intros Hlt Hp.
    destruct (Req_dec_T rssi 0) as [E|_]; [Lra.lra|].
    destruct (Rle_dec (-30) rssi) as [Hle|_]; [Lra.lra|].
    match goal with |- context [Rle_dec (IZR ?l) ?p] =>
      destruct (Rle_dec (IZR l) p) as [_|Hq]; [reflexivity|contradiction] end.
  - intros Hle Hne.
    destruct (Req_dec_T rssi 0) as [E|_]; [contradiction|].
    destruct (Rle_dec (-30) rssi) as [_|Hn]; [reflexivity|contradiction].
  - intros ->. destruct (Req_dec_T 0 0) as [_|n]; [reflexivity|].
    exfalso; apply n; reflexivity.
Qed.

Lemma rssi_distance_formula_checked_witness :
  -40 < -30
  /\ Rpower 10 ((-30 - -40) / (10 * (if Req_dec_T (24 / 10) (24 / 10) then 25 / 10 else 3))) < IZR float_overflow_limit
  /\ calculate_rssi_distance_checked (-40) (24 / 10) =
     Some (Rmin ((if Req_dec_T (24 / 10) 5 then 8 / 10 else 1) * Rpower 10 ((-30 - -40) / (10 * (if Req_dec_T (24 / 10) (24 / 10) then 25 / 10 else 3)))) 100)
  /\ -10000 < -30
  /\ IZR float_overflow_limit <= Rpower 10 ((-30 - -10000) / (10 * (if Req_dec_T 5 (24 / 10) then 25 / 10 else 3)))
  /\ calculate_rssi_distance_checked (-10000) 5 = None
  /\ -30 <= -20 /\ -20 <> 0
  /\ calculate_rssi_distance_checked (-20) 5 = Some 1
  /\ calculate_rssi_distance_checked 0 5 = Some (-1).
Proof.
  destruct (rssi_distance_formula_checked (-40) (24 / 10)) as [H1 _].
  destruct (rssi_distance_formula_checked (-10000) 5) as [_ [H2 _]].
  destruct (rssi_distance_formula_checked (-20) 5) as [_ [_ [H3 _]]].
  destruct (rssi_distance_formula_checked 0 5) as [_ [_ [_ H4]]].
  assert (P1 : Rpower 10 ((-30 - -40) / (10 * (if Req_dec_T (24 / 10) (24 / 10) then 25 / 10 else 3))) < IZR float_overflow_limit).
  { apply pow10_below_limit.
    destruct (Req_dec_T (24 / 10) (24 / 10)); Lra.lra. }
  assert (P2 : IZR float_overflow_limit <= Rpower 10 ((-30 - -10000) / (10 * (if Req_dec_T 5 (24 / 10) then 25 / 10 else 3)))).
  { apply pow10_above_limit.
    destruct (Req_dec_T 5 (24 / 10)); Lra.lra. }
  split; [Lra.lra|]. split; [exact P1|]. split; [apply H1; [Lra.lra | exact P1]|].
  split; [Lra.lra|]. split; [exact P2|]. split; [apply H2; [Lra.lra | exact P2]|].
  split; [Lra.lra|]. split; [Lra.lra|]. split; [apply H3; Lra.lra|].
  apply H4; reflexivity.
Defined.

(** At [rssi = -10000] the exponent is [9970 / 25 = 398.8] at 2.4 GHz
    and [9970 / 30 = 332.3...] otherwise: [math.pow] overflows for every
    frequency. *)
Lemma rssi_overflow_at_minus_10000 (frequency : R) :
  calculate_rssi_distance_checked (-10000) frequency = None.
Proof.
  unfold calculate_rssi_distance_checked, math_pow. cbv zeta.
  destruct (Req_dec_T (-10000) 0) as [E|_]; [Lra.lra|].
  destruct (Rle_dec (-30) (-10000)) as [E|_]; [Lra.lra|].
  match goal with |- context [Rle_dec (IZR ?l) ?p] =>
    destruct (Rle_dec (IZR l) p) as [_|Hn]; [reflexivity|] end.
  exfalso. apply Hn. apply pow10_above_limit.
  destruct (Req_dec_T frequency (24 / 10)); Lra.lra.
Qed.

(** Claim C3 fails at [rssi = -10000]: at 2.4 GHz and at 5.0 GHz,
    [math.pow(10, e)] exceeds the float range and raises [OverflowError]
    instead of returning [min(10^e, 100)]. *)
Theorem rssi_distance_overflows :
  calculate_rssi_distance_checked (-10000) (24 / 10) = None
  /\ calculate_rssi_distance_checked (-10000) 5 = None.
Proof. split; apply rssi_overflow_at_minus_10000. Qed.

(** [10^(1/30) < 5/4], since [10 < (5/4)^30]. *)
Lemma rpower_10_1_30_lt : Rpower 10 (1 / 30) < 5 / 4.
Proof.
  unfold Rpower.
  rewrite <- (exp_ln (5 / 4)) by Lra.lra.
  apply exp_increasing.
  assert (Hpow : 10 < (5 / 4) ^ 30) by (simpl; Lra.lra).
  assert (Hln : ln 10 < ln ((5 / 4) ^ 30)) by (apply ln_increasing; Lra.lra).
  rewrite ln_pow in Hln by Lra.lra.
  replace (INR 30) with 30 in Hln by (simpl; Lra.lra).
  Lra.lra.
Qed.

(** Claim C8 fails: at 5.0 GHz just below the reference, the calibration
    factor [0.8] is applied after the one-metre floor, so the result
    [0.8 * 10^(1/30) = 0.863...] is below 1 metre. *)
Theorem rssi_distance_below_one_metre :
  calculate_rssi_distance (-31) 5 < 1.
Proof.
  unfold calculate_rssi_distance.
  destruct (Req_dec_T (-31) 0) as [E|_]; [Lra.lra|].
  destruct (Req_dec_T 5 (24 / 10)) as [E|_]; [Lra.lra|].
  destruct (Rle_dec (-30) (-31)) as [E|_]; [Lra.lra|].
  destruct (Req_dec_T 5 5) as [_|n]; [|exfalso; apply n; reflexivity].
  replace ((-30 - -31) / (10 * 3)) with (1 / 30) by Lra.lra.
  pose proof rpower_10_1_30_lt as H.
  pose proof (Rmin_l (Rpower 10 (1 / 30) * (8 / 10)) 100) as Hm.
  Lra.lra.
Qed.

End RssiFacts.

(* ================================================================== *)
(** * Properties of [_convert_signal_percent_to_rssi] *)
(* ================================================================== *)

Module SignalFacts.

Import Signal.
Open Scope Q_scope.

Example signal_50 : convert_signal_percent_to_rssi 50 == -60.
Proof. reflexivity. Qed.

Lemma inject_Z_le (a b : Z) : (a <= b)%Z -> inject_Z a <= inject_Z b.
Proof. intros H. rewrite <- Zle_Qle. exact H. Qed.

Lemma signal_mid_bounds (p : Z) :
  (0 < p < 100)%Z ->
  -90 < -90 + inject_Z p * (6 # 10) /\ -90 + inject_Z p * (6 # 10) < -30.
Proof.
  intros [H1 H2].
  assert (L1 : inject_Z 1 <= inject_Z p) by (apply inject_Z_le; lia).
  assert (L2 : inject_Z p <= inject_Z 99) by (apply inject_Z_le; lia).
  change (inject_Z 1) with 1 in L1. change (inject_Z 99) with 99 in L2.
  split; Lqa.lra.
Qed.

Lemma signal_range (p : Z) :
  -90 <= convert_signal_percent_to_rssi p <= -30.
Proof.
  unfold convert_signal_percent_to_rssi.
  destruct (p <=? 0)%Z eqn:E1; [split; discriminate|].
  destruct (100 <=? p)%Z eqn:E2; [split; discriminate|].
  apply Z.leb_gt in E1. apply Z.leb_gt in E2.
  destruct (signal_mid_bounds p) as [H1 H2]; [lia|].
  split; Lqa.lra.
Qed.

(** Claim C9. The conversion is exactly [-90] for [p <= 0], exactly
    [-30] for [p >= 100], [-90 + 0.6 p] strictly between the two for
    [0 < p < 100]; it always lies in [[-90, -30]] and is monotone. *)
Theorem signal_percent_to_rssi_spec :
  (forall p, (p <= 0)%Z -> convert_signal_percent_to_rssi p = -90)
  /\ (forall p, (100 <= p)%Z -> convert_signal_percent_to_rssi p = -30)
  /\ (forall p, (0 < p < 100)%Z ->
        convert_signal_percent_to_rssi p = -90 + inject_Z p * (6 # 10)
        /\ -90 < convert_signal_percent_to_rssi p < -30)
  /\ (forall p, -90 <= convert_signal_percent_to_rssi p <= -30)
  /\ (forall p1 p2, (p1 <= p2)%Z ->
        convert_signal_percent_to_rssi p1 <= convert_signal_percent_to_rssi p2).
Proof.
  split; [|split; [|split; [|split]]].
  - intros p H. unfold convert_signal_percent_to_rssi.
    apply Z.leb_le in H. rewrite H. reflexivity.
  - intros p H. unfold convert_signal_percent_to_rssi.
    destruct (p <=? 0)%Z eqn:E; [apply Z.leb_le in E; lia|].
    apply Z.leb_le in H. rewrite H. reflexivity.
  - intros p H. unfold convert_signal_percent_to_rssi.
    destruct (p <=? 0)%Z eqn:E1; [apply Z.leb_le in E1; lia|].
    destruct (100 <=? p)%Z eqn:E2; [apply Z.leb_le in E2; lia|].
    split; [reflexivity|]. apply signal_mid_bounds, H.
  - apply signal_range.
  - intros p1 p2 H.
    pose proof (signal_range p1) as R1. pose proof (signal_range p2) as R2.
    unfold convert_signal_percent_to_rssi in *.
    destruct (p1 <=? 0)%Z eqn:A1; [Lqa.lra|].
    destruct (p2 <=? 0)%Z eqn:A2; [apply Z.leb_le in A2; apply Z.leb_gt in A1; lia|].
    destruct (100 <=? p2)%Z eqn:B2; [Lqa.lra|].
    destruct (100 <=? p1)%Z eqn:B1; [apply Z.leb_le in B1; apply Z.leb_gt in B2; lia|].
    apply inject_Z_le in H. Lqa.lra.
Qed.

Lemma signal_percent_to_rssi_spec_witness :
  convert_signal_percent_to_rssi (-5) = -90
  /\ convert_signal_percent_to_rssi 120 = -30
  /\ (convert_signal_percent_to_rssi 75 = -90 + inject_Z 75 * (6 # 10)
      /\ -90 < convert_signal_percent_to_rssi 75 < -30)
  /\ convert_signal_percent_to_rssi 20 <= convert_signal_percent_to_rssi 21.
Proof.
  destruct signal_percent_to_rssi_spec as [H0 [H100 [Hmid [_ Hmono]]]].
  split; [apply H0; lia|]. split; [apply H100; lia|].
  split; [apply Hmid; lia|]. apply Hmono; lia.
Defined.

End SignalFacts.

(* ================================================================== *)
(** * Properties of [_trilaterate] *)
(* ================================================================== *)

Module TrilaterationFacts.

Import FloatRange Trilateration.
Open Scope Q_scope.
Open Scope string_scope.

Lemma py_sq_fits (v : pyval) : sq_fits v -> exists s, py_sq v = Ok s.
Proof.
  destruct v as [z|q|]; cbn [sq_fits py_sq]; intros H.
  - eexists; reflexivity.
  - destruct (Qle_bool (inject_Z float_overflow_limit) (q * q)) eqn:E.
    + apply Qle_bool_iff in E. exfalso. Lqa.lra.
    + eexists; reflexivity.
  - contradiction.
Qed.

(** With a ['distance'] key whose square can be taken, the three radii
    coincide and the solution of the linear system is the fixed point
    [(50, 999912/34640)]. *)
Lemma trilaterate_fixed {AP : Type} (dev : device) (aps : list AP) (v : pyval) :
  dict_lookup dev "distance" = Some v ->
  sq_fits v ->
  (3 <= List.length aps)%nat ->
  exists x y, trilaterate dev aps = Ok (x, y) /\ x == 50 /\ y == 999912 # 34640.
Proof.
  intros Hr Hv Hlen. destruct (py_sq_fits v Hv) as [sq Es].
  unfold trilaterate, dict_get. rewrite Hr, Es.
  destruct (List.length aps <? 3)%nat eqn:El; [apply Nat.ltb_lt in El; lia|].
  cbv zeta.
  match goal with |- context [if Qeq_bool ?X 0 then _ else _] =>
    destruct (Qeq_bool X 0) eqn:E1; [vm_compute in E1; discriminate|] end.
  match goal with |- context [if Qeq_bool ?X 0 then _ else _] =>
    destruct (Qeq_bool X 0) eqn:E2; [vm_compute in E2; discriminate|] end.
  do 2 eexists. split; [reflexivity|].
  split; field; intro E; vm_compute in E; discriminate.
Qed.

(** Claim C5, corrected. For two device dictionaries whose ['distance']
    value is an [int] or a [float] whose square fits a float, and two
    lists of at least three access points, of any contents, both runs of
    [_trilaterate] return, and return the same point. *)
Theorem trilaterate_ignores_inputs_checked {AP : Type} (d1 d2 : device)
    (aps1 aps2 : list AP) (v1 v2 : pyval) :
  dict_lookup d1 "distance" = Some v1 ->
  dict_lookup d2 "distance" = Some v2 ->
  sq_fits v1 ->
  sq_fits v2 ->
  (3 <= List.length aps1)%nat ->
  (3 <= List.length aps2)%nat ->
  exists x1 y1 x2 y2,
    trilaterate d1 aps1 = Ok (x1, y1) /\ trilaterate d2 aps2 = Ok (x2, y2)
    /\ x1 == x2 /\ y1 == y2.
Proof.
  intros H1 H2 F1 F2 L1 L2.
  destruct (trilaterate_fixed d1 aps1 v1 H1 F1 L1) as (x1 & y1 & T1 & X1 & Y1).
  destruct (trilaterate_fixed d2 aps2 v2 H2 F2 L2) as (x2 & y2 & T2 & X2 & Y2).
  exists x1, y1, x2, y2. split; [exact T1|]. split; [exact T2|].
  rewrite X1, X2, Y1, Y2. split; reflexivity.
Qed.

Lemma trilaterate_ignores_inputs_checked_witness :
  sq_fits (VFloat 3) /\ sq_fits (VInt 80) /\
  exists x1 y1 x2 y2,
    trilaterate [("distance", VFloat 3)] [1%nat; 2%nat; 3%nat] = Ok (x1, y1)
    /\ trilaterate [("mac", VOther); ("distance", VInt 80)] [7%nat; 7%nat; 7%nat; 9%nat]
       = Ok (x2, y2)
    /\ x1 == x2 /\ y1 == y2.
Proof.
  assert (F1 : sq_fits (VFloat 3)) by (vm_compute; reflexivity).
  assert (F2 : sq_fits (VInt 80)) by exact I.
  split; [exact F1|]. split; [exact F2|].
  apply (trilaterate_ignores_inputs_checked _ _ _ _ (VFloat 3) (VInt 80));
    [reflexivity | reflexivity | exact F1 | exact F2 | simpl; lia | simpl; lia].
Defined.

(** Claim C5 fails for a float distance whose square overflows: with
    ['distance'] = [1e200], [r1**2] raises [OverflowError] outside the
    [try], which only catches [ZeroDivisionError]; with ['distance'] =
    [5.0] and the same access points a point is returned. *)
Theorem trilaterate_overflow :
  trilaterate [("distance", VFloat (inject_Z (10 ^ 200)))] [tt; tt; tt] = Raise OverflowError
  /\ exists x y, trilaterate [("distance", VFloat 5)] [tt; tt; tt] = Ok (x, y).
Proof.
  split.
  - vm_compute. reflexivity.
  - destruct (trilaterate_fixed [("distance", VFloat 5)] [tt; tt; tt] (VFloat 5))
      as (x & y & T & _); [reflexivity | vm_compute; reflexivity | simpl; lia |].
    exists x, y. exact T.
Qed.

End TrilaterationFacts.

(* ================================================================== *)
(** * Properties of the monitoring history *)
(* ================================================================== *)

Module MonitoringFacts.

Import Monitoring.

Example store_history_trims :
  List.length (store_history (mkSnapshot 101 0 0)
                 (List.map (fun i => mkSnapshot i 0 0) (List.seq 1 100))) = 100%nat.
Proof. reflexivity. Qed.

Lemma store_history_bound (s : snapshot) (h : list snapshot) :
  (List.length h <= 100)%nat -> (List.length (store_history s h) <= 100)%nat.
Proof.
  intros H. unfold store_history.
  destruct (100 <? List.length (h ++ [s]))%nat eqn:E.
  - apply Nat.ltb_lt in E. rewrite length_app in E. simpl in E.
    assert (Hl : List.length (List.tl (h ++ [s])) = List.length h).
    { destruct h as [|x t]; simpl in *; [lia|]. rewrite length_app. simpl. lia. }
    lia.
  - apply Nat.ltb_ge in E. exact E.
Qed.

Lemma monitor_step_bound (a b : analyzer) :
  monitor_step a b ->
  (List.length (history a) <= 100)%nat -> (List.length (history b) <= 100)%nat.
Proof.
  intros Hs H. inversion Hs; subst; simpl.
  - apply store_history_bound, H.
  - exact H.
Qed.

(** Claim C10. Every iteration of the monitoring loop preserves
    [len(history) <= 100], and every state the loop reaches from an
    empty history has at most 100 entries. *)
Theorem monitoring_history_bounded :
  (forall a b, monitor_step a b ->
     (List.length (history a) <= 100)%nat -> (List.length (history b) <= 100)%nat)
  /\ (forall a b, monitor_steps a b -> history a = [] ->
        (List.length (history b) <= 100)%nat).
Proof.
  split.
  - apply monitor_step_bound.
  - intros a b Hs Ha.
    assert (H0 : (List.length (history a) <= 100)%nat) by (rewrite Ha; simpl; lia).
    clear Ha. induction Hs as [a|a b c Hab Hbc IH].
    + exact H0.
    + apply IH. exact (monitor_step_bound a b Hab H0).
Qed.

Lemma monitoring_history_bounded_witness :
  monitor_steps (mkAnalyzer true [])
                (mkAnalyzer true (store_history (mkSnapshot 2 1 0)
                                   (store_history (mkSnapshot 1 1 0) [])))
  /\ (List.length (store_history (mkSnapshot 2 1 0)
                    (store_history (mkSnapshot 1 1 0) [])) <= 100)%nat.
Proof.
  assert (Hs : monitor_steps (mkAnalyzer true [])
                 (mkAnalyzer true (store_history (mkSnapshot 2 1 0)
                                    (store_history (mkSnapshot 1 1 0) [])))).
  { eapply steps_trans; [apply (monitor_store (mkAnalyzer true []) (mkSnapshot 1 1 0)); reflexivity|].
    eapply steps_trans;
      [apply (monitor_store (mkAnalyzer true (store_history (mkSnapshot 1 1 0) []))
                            (mkSnapshot 2 1 0)); reflexivity|].
    apply steps_refl. }
  split; [exact Hs|].
  exact (proj2 monitoring_history_bounded _ _ Hs eq_refl).
Defined.

End MonitoringFacts.

(* ================================================================== *)
(** * Properties of form persistence *)
(* ================================================================== *)

Module PersistenceFacts.

Import stdpp.base stdpp.gmap stdpp.strings.
Import Persistence.

(** Claim C6, as stated, fails: in [p4.py] typing a new value into a
    [create_input] widget writes [glove_voice_data.json] with no save
    action ("Sauvegarder automatiquement quand il y a un changement"). *)
Lemma create_input_writes_without_save :
  save_file (fst (create_input "company_name" "Glove Voice" (mkP4 ∅ None)))
  ≠ save_file (mkP4 ∅ None).
Proof. simpl. discriminate. Qed.

(** Claim C6 (amended). In [ft3.py] the saved JSON files change only on
    the ["Sauvegarder"] action, which stores the session under a new
    file name; in [p4.py] [create_input] writes the whole updated
    [saved_data] dict to [SAVE_FILE] as soon as the entered value differs
    from the stored one, and leaves the state unchanged otherwise. *)
Theorem persistence_by_app :
  (∀ (st : ft3_state) (k v : string),
     saved_files (ft3_step st (WidgetEdit k v)) = saved_files st)
  ∧ (∀ (st : ft3_state) (c t : string),
       saved_files (ft3_step st (ClickSave c t))
       = <["saved_data/" +:+ c +:+ "_" +:+ t +:+ ".json" := session st]> (saved_files st))
  ∧ (∀ (st : p4_state) (key v : string),
       saved_data st !! key ≠ Some v →
       save_file (fst (create_input key v st)) = Some (<[key := v]> (saved_data st)))
  ∧ (∀ (st : p4_state) (key v : string),
       saved_data st !! key = Some v → fst (create_input key v st) = st).
Proof.
  split; [|split; [|split]].
  - intros st k v. reflexivity.
  - intros st c t. reflexivity.
  - intros st key v H. unfold create_input.
    destruct (decide (saved_data st !! key = Some v)); [contradiction|reflexivity].
  - intros st key v H. unfold create_input.
    destruct (decide (saved_data st !! key = Some v)); [reflexivity|contradiction].
Qed.

Lemma persistence_by_app_witness :
  save_file (fst (create_input "ssid" "Lab" (mkP4 ∅ None)))
  = Some (<["ssid" := "Lab"]> (∅ : form))
  ∧ fst (create_input "ssid" "Lab" (mkP4 {["ssid" := "Lab"]} None))
    = mkP4 {["ssid" := "Lab"]} None.
Proof.
  destruct persistence_by_app as [_ [_ [Hw Hs]]].
  split.
  - apply (Hw (mkP4 ∅ None)). simpl. rewrite lookup_empty. discriminate.
  - apply (Hs (mkP4 {["ssid" := "Lab"]} None)). simpl.
    apply lookup_singleton_eq.
Defined.

End PersistenceFacts.

(* ================================================================== *)
(** * Further properties of the amortization table *)
(* ================================================================== *)

Module AmortizationColumnsFacts.

Import Amortization AmortizationColumns AmortizationFacts.
Open Scope Q_scope.

Lemma show_amortization_some (P rate : Q) (term : Z) (f : frequency) (g : nat)
    (sched : list row) :
  show_amortization P rate term f g = Some sched ->
  0 < P /\ 0 < rate /\ (0 < term)%Z /\
  sched = grace_loop rate P 1 g
          ++ repay_loop (annuity_payment P rate term f)
               (rate / inject_Z (periods_per_year f)) (g + 1) P
               (Z.to_nat (term * periods_per_year f)).
Proof.
  unfold show_amortization, annuity_payment, Qpos_bool.
  destruct (Qle_bool P 0) eqn:E1; simpl; [discriminate|].
  destruct (Qle_bool rate 0) eqn:E2; simpl; [discriminate|].
  destruct (0 <? term)%Z eqn:E3; simpl; [|discriminate].
  intros H. injection H as <-.
  assert (L : forall x : Q, Qle_bool x 0 = false -> 0 < x).
  { intros x Ex. apply Qnot_le_lt. intros Hle. apply Qle_bool_iff in Hle. congruence. }
  split; [apply L, E1|]. split; [apply L, E2|]. split; [apply Z.ltb_lt, E3|].
  reflexivity.
Qed.

Lemma show_amortization_built (P rate : Q) (term : Z) (f : frequency) (g : nat) :
  0 < P -> 0 < rate -> (0 < term)%Z ->
  show_amortization P rate term f g =
  Some (grace_loop rate P 1 g
        ++ repay_loop (annuity_payment P rate term f)
             (rate / inject_Z (periods_per_year f)) (g + 1) P
             (Z.to_nat (term * periods_per_year f))).
Proof.
  intros HP Hr Ht. unfold show_amortization.
  rewrite (Qpos_bool_true P HP), (Qpos_bool_true rate Hr).
  apply Z.ltb_lt in Ht. rewrite Ht. reflexivity.
Qed.

Lemma grace_periods (rate b : Q) (m k : nat) :
  map periode (grace_loop rate b m k) = seq m k.
Proof.
  revert m. induction k as [|k IH]; intros m; cbn; [reflexivity|]. f_equal. apply IH.
Qed.

Lemma repay_periods (pay q : Q) (m : nat) (b : Q) (k : nat) :
  map periode (repay_loop pay q m b k) = seq m k.
Proof.
  revert m b. induction k as [|k IH]; intros m b; cbn; [reflexivity|]. f_equal. apply IH.
Qed.

(** The [Période] column of a built schedule numbers its rows
    [1, 2, ..., grace_period + term * periods_per_year]: grace rows first,
    repayment rows after, no gap and no repetition. *)
Theorem amortization_period_numbering (P rate : Q) (term : Z) (f : frequency) (g : nat)
    (sched : list row) :
  show_amortization P rate term f g = Some sched ->
  map periode sched = seq 1 (g + Z.to_nat (term * periods_per_year f)).
Proof.
  intros H. apply show_amortization_some in H as (_ & _ & _ & ->).
  rewrite map_app, grace_periods, repay_periods, seq_app.
  f_equal. f_equal. lia.
Qed.

Lemma amortization_period_numbering_witness :
  show_amortization 12000 (5 # 100) 1 Trimestrielle 2 =
    Some (grace_loop (5 # 100) 12000 1 2
          ++ repay_loop (annuity_payment 12000 (5 # 100) 1 Trimestrielle)
               ((5 # 100) / inject_Z 4) 3 12000 4)
  /\ map periode (grace_loop (5 # 100) 12000 1 2
          ++ repay_loop (annuity_payment 12000 (5 # 100) 1 Trimestrielle)
               ((5 # 100) / inject_Z 4) 3 12000 4) = seq 1 (2 + Z.to_nat (1 * 4)).
Proof.
  assert (H : show_amortization 12000 (5 # 100) 1 Trimestrielle 2 =
    Some (grace_loop (5 # 100) 12000 1 2
          ++ repay_loop (annuity_payment 12000 (5 # 100) 1 Trimestrielle)
               ((5 # 100) / inject_Z 4) 3 12000 4)) by reflexivity.
  split; [exact H|]. exact (amortization_period_numbering _ _ _ _ _ _ H).
Defined.

Lemma inject_nat_succ (k : nat) :
  inject_Z (Z.of_nat (S k)) == inject_Z (Z.of_nat k) + 1.
Proof. rewrite Nat2Z.inj_succ, <- Z.add_1_r, inject_Z_plus. reflexivity. Qed.

Lemma sum_interets_app (s1 s2 : list row) :
  sum_interets (s1 ++ s2) == sum_interets s1 + sum_interets s2.
Proof.
  induction s1 as [|r s1 IH]; cbn [app].
  - unfold sum_interets. cbn [fold_right]. ring.
  - unfold sum_interets in *. cbn [fold_right]. rewrite IH. ring.
Qed.

Lemma sum_interets_grace (rate b : Q) (m k : nat) :
  sum_interets (grace_loop rate b m k) == inject_Z (Z.of_nat k) * (b * (rate / 12)).
Proof.
  revert m. induction k as [|k IH]; intros m; cbn [grace_loop].
  - unfold sum_interets. cbn [fold_right]. ring.
  - unfold sum_interets in *. cbn [fold_right interets]. rewrite IH, inject_nat_succ. ring.
Qed.

Lemma sum_interets_repay (pay q : Q) (m : nat) (b : Q) (k : nat) :
  sum_interets (repay_loop pay q m b k)
  == inject_Z (Z.of_nat k) * pay - (b - balance_after pay q b k).
Proof.
  revert m b. induction k as [|k IH]; intros m b; cbn [repay_loop balance_after].
  - unfold sum_interets. cbn [fold_right]. ring.
  - unfold sum_interets in *. cbn [fold_right interets]. rewrite IH, inject_nat_succ. ring.
Qed.

(** The [Intérêts] column of a built schedule sums to the grace-period
    interest [grace_period * principal * rate / 12] plus the total paid
    in the repayment periods minus the principal. *)
Theorem amortization_total_interest (P rate : Q) (term : Z) (f : frequency) (g : nat)
    (HP : 0 < P) (Hr : 0 < rate) (Ht : (0 < term)%Z) :
  exists sched, show_amortization P rate term f g = Some sched
    /\ sum_interets sched
       == inject_Z (Z.of_nat g) * (P * (rate / 12))
          + inject_Z (term * periods_per_year f) * annuity_payment P rate term f - P.
Proof.
  rewrite (show_amortization_built P rate term f g HP Hr Ht).
  eexists. split; [reflexivity|].
  rewrite sum_interets_app, sum_interets_grace, sum_interets_repay.
  unfold annuity_payment at 2. rewrite balance_after_annuity.
  - rewrite Z2Nat.id by (destruct f; simpl; lia). ring.
  - apply periodic_rate_pos, Hr.
  - apply periods_pos, Ht.
Qed.

Lemma amortization_total_interest_witness :
  0 < 10000 /\ 0 < 4 # 100 /\ (0 < 5)%Z /\
  exists sched, show_amortization 10000 (4 # 100) 5 Annuelle 2 = Some sched
    /\ sum_interets sched
       == inject_Z (Z.of_nat 2) * (10000 * ((4 # 100) / 12))
          + inject_Z (5 * periods_per_year Annuelle) * annuity_payment 10000 (4 # 100) 5 Annuelle
          - 10000.
Proof.
  split; [reflexivity|]. split; [reflexivity|]. split; [reflexivity|].
  apply amortization_total_interest; reflexivity.
Defined.

Lemma qpow_add (x : Q) (a b : nat) : qpow x (a + b) == qpow x a * qpow x b.
Proof.
  induction a as [|a IH]; cbn [qpow Nat.add].
  - ring.
  - rewrite IH. ring.
Qed.

Lemma qpow_mono (q : Q) (j n : nat) :
  0 < q -> (j <= n)%nat -> qpow (1 + q) j <= qpow (1 + q) n.
Proof.
  intros Hq Hjn. replace n with (j + (n - j))%nat by lia.
  rewrite qpow_add.
  pose proof (qpow_ge_1 q j Hq). pose proof (qpow_ge_1 q (n - j) Hq).
  Lqa.nra.
Qed.

(** Within the term, the running balance under the annuity payment stays
    in [[0, P]]. *)
Lemma balance_after_bounds (P q : Q) (n j : nat) :
  0 < P -> 0 < q -> (0 < n)%nat -> (j <= n)%nat ->
  0 <= balance_after (P * (q * qpow (1 + q) n) / (qpow (1 + q) n - 1)) q P j <= P.
Proof.
  intros HP Hq Hn Hj.
  pose proof (qpow_gt_1 q n Hq Hn) as HX.
  pose proof (qpow_ge_1 q j Hq) as HY1.
  pose proof (qpow_mono q j n Hq Hj) as HYX.
  set (X := qpow (1 + q) n) in *. set (Y := qpow (1 + q) j) in *.
  set (pay := P * (q * X) / (X - 1)).
  assert (Hpay : pay * (X - 1) == P * q * X).
  { unfold pay. field. intro E. Lqa.lra. }
  pose proof (balance_after_closed pay q P j) as Hc. fold Y in Hc.
  set (B := balance_after pay q P j) in *.
  assert (HPq : 0 < P * q) by (apply Qmult_lt_0_compat; assumption).
  assert (Hge : P * q <= pay).
  { apply Qnot_lt_le. intros Hlt.
    assert (pay * (X - 1) < P * q * (X - 1)) by Lqa.nra. Lqa.nra. }
  assert (Hup : B * q <= P * q).
  { rewrite Hc. Lqa.nra. }
  assert (Hlo : 0 <= B * q).
  { rewrite Hc.
    assert (0 <= (P * q * Y - pay * (Y - 1)) * (X - 1)).
    { assert (Eq : (P * q * Y - pay * (Y - 1)) * (X - 1)
                   == P * q * Y * (X - 1) - pay * (X - 1) * (Y - 1)) by ring.
      rewrite Eq, Hpay. Lqa.nra. }
    Lqa.nra. }
  split; Lqa.nra.
Qed.

Lemma repay_soldes_le (pay q : Q) (m : nat) (b U : Q) (k : nat) :
  0 <= U ->
  (forall j, (1 <= j <= k)%nat -> balance_after pay q b j <= U) ->
  Forall (fun r => solde r <= U) (repay_loop pay q m b k).
Proof.
  intros HU. revert m b. induction k as [|k IH]; intros m b Hb; cbn [repay_loop].
  - constructor.
  - constructor.
    + cbn [solde]. apply Q.max_lub; [exact HU|].
      apply (Hb 1%nat). lia.
    + apply IH. intros j Hj. apply (Hb (S j)). lia.
Qed.

Lemma grace_soldes_eq (rate b : Q) (m k : nat) :
  Forall (fun r => solde r == b) (grace_loop rate b m k).
Proof.
  revert m. induction k as [|k IH]; intros m; cbn [grace_loop].
  - constructor.
  - constructor; [reflexivity | apply IH].
Qed.

(** With exact arithmetic the running [balance] of the repayment loop
    never leaves [[0, principal]] during the term, so the [max(0.0, ...)]
    clamp never changes a value, and every [Solde] of a built schedule is
    at most the principal. *)
Theorem amortization_balance_within_principal (P rate : Q) (term : Z) (f : frequency)
    (g : nat) (HP : 0 < P) (Hr : 0 < rate) (Ht : (0 < term)%Z) :
  (forall j, (j <= Z.to_nat (term * periods_per_year f))%nat ->
     0 <= balance_after (annuity_payment P rate term f)
            (rate / inject_Z (periods_per_year f)) P j <= P)
  /\ exists sched, show_amortization P rate term f g = Some sched
       /\ Forall (fun r => solde r <= P) sched.
Proof.
  assert (Hb : forall j, (j <= Z.to_nat (term * periods_per_year f))%nat ->
     0 <= balance_after (annuity_payment P rate term f)
            (rate / inject_Z (periods_per_year f)) P j <= P).
  { intros j Hj. unfold annuity_payment.
    apply balance_after_bounds; try assumption.
    - apply periodic_rate_pos, Hr.
    - apply periods_pos, Ht. }
  split; [exact Hb|].
  rewrite (show_amortization_built P rate term f g HP Hr Ht).
  eexists. split; [reflexivity|].
  apply Forall_app. split.
  - eapply Forall_impl; [|apply grace_soldes_eq]. intros r E. rewrite E. apply Qle_refl.
  - apply repay_soldes_le; [apply Qlt_le_weak, HP|].
    intros j Hj. apply Hb. lia.
Qed.

Lemma amortization_balance_within_principal_witness :
  0 < 8000 /\ 0 < 9 # 100 /\ (0 < 2)%Z /\
  (0 <= balance_after (annuity_payment 8000 (9 # 100) 2 Mensuelle)
          ((9 # 100) / inject_Z (periods_per_year Mensuelle)) 8000 10 <= 8000).
Proof.
  split; [reflexivity|]. split; [reflexivity|]. split; [reflexivity|].
  destruct (amortization_balance_within_principal 8000 (9 # 100) 2 Mensuelle 0)
    as [H _]; try reflexivity.
  apply H. vm_compute. lia.
Defined.

(** For every period [p >= 1] of a monthly schedule the [Année] column is
    at least 1, the [Trimestre] column lies in [1..4], and [p] falls in
    the months of that quarter of that year; twelve periods later the
    year is one more and the quarter the same. *)
Theorem annee_trimestre_consistent (p : Z) :
  (1 <= p)%Z ->
  (1 <= annee p)%Z /\ (1 <= trimestre p <= 4)%Z
  /\ (12 * (annee p - 1) + 3 * (trimestre p - 1) < p
       <= 12 * (annee p - 1) + 3 * trimestre p)%Z
  /\ annee (p + 12) = (annee p + 1)%Z /\ trimestre (p + 12) = trimestre p.
Proof.
  intros Hp. unfold annee, trimestre.
  replace (p + 12 - 1)%Z with ((p - 1) + 1 * 12)%Z by lia.
  rewrite Z.div_add, Z.mod_add by lia.
  pose proof (Z.div_mod (p - 1) 12 ltac:(lia)) as Hdm.
  pose proof (Z.mod_pos_bound (p - 1) 12 ltac:(lia)) as Hm.
  set (r := ((p - 1) mod 12)%Z) in *. set (y := ((p - 1) / 12)%Z) in *.
  pose proof (Z.div_mod r 3 ltac:(lia)) as Hdm3.
  pose proof (Z.mod_pos_bound r 3 ltac:(lia)) as Hm3.
  assert (0 <= y)%Z by (apply Z.div_pos; lia).
  assert (0 <= r / 3 < 4)%Z.
  { split; [apply Z.div_pos; lia|]. apply Z.div_lt_upper_bound; lia. }
  repeat split; lia.
Qed.

Lemma annee_trimestre_consistent_witness :
  (annee 14 = 2 /\ trimestre 14 = 1)%Z /\
  ((1 <= annee 14)%Z /\ (1 <= trimestre 14 <= 4)%Z
  /\ (12 * (annee 14 - 1) + 3 * (trimestre 14 - 1) < 14
       <= 12 * (annee 14 - 1) + 3 * trimestre 14)%Z
  /\ annee (14 + 12) = (annee 14 + 1)%Z /\ trimestre (14 + 12) = trimestre 14).
Proof.
  split; [split; reflexivity|]. apply annee_trimestre_consistent. lia.
Defined.

End AmortizationColumnsFacts.

(* ================================================================== *)
(** * Further properties of [float()] *)
(* ================================================================== *)

Module PyFloatExtraFacts.

Import PyFloat.
Open Scope Q_scope.

(** [safe_float_convert] can only raise on an [int] argument: on strings,
    [None], booleans and floats it always returns a float; and an [int]
    of magnitude below [2^53] converts exactly. *)
Theorem safe_float_convert_total_off_ints :
  (forall x, (forall z, x <> PyInt z) -> exists v, safe_float_convert x = Ok v)
  /\ (forall z, (Z.abs z < 2 ^ 53)%Z -> safe_float_convert (PyInt z) = Ok (inject_Z z)).
Proof.
  split.
  - intros x Hx. unfold safe_float_convert, py_float.
    destruct x as [z|b|q|s|].
    + exfalso. apply (Hx z). reflexivity.
    + eexists. reflexivity.
    + eexists. reflexivity.
    + destruct (parse_float_literal s); eexists; reflexivity.
    + eexists. reflexivity.
  - intros z Hz. unfold safe_float_convert, py_float, float_of_int, round_int_to_double.
    apply Z.ltb_lt in Hz as Hzb. rewrite Hzb.
    assert (E : (2 ^ 1024 <=? Z.abs z)%Z = false).
    { apply Z.leb_gt. assert (2 ^ 53 < 2 ^ 1024)%Z by reflexivity. lia. }
    rewrite E. reflexivity.
Qed.

Lemma safe_float_convert_total_off_ints_witness :
  (exists v, safe_float_convert (PyStr "12,5") = Ok v)
  /\ safe_float_convert (PyInt (-7)) = Ok (inject_Z (-7)).
Proof.
  destruct safe_float_convert_total_off_ints as [H1 H2]. split.
  - apply H1. intros z. discriminate.
  - apply H2. reflexivity.
Defined.

End PyFloatExtraFacts.

Module RssiExtraFacts.

Import Rssi Signal SignalFacts.
Open Scope R_scope.

Lemma rpower10_gt_1 (e : R) : 0 < e -> 1 < Rpower 10 e.
Proof.
  intros He. rewrite <- (Rpower_O 10) by Lra.lra.
  apply Rpower_lt; Lra.lra.
Qed.

Lemma rssi_exponent_pos (rssi frequency : R) :
  rssi < -30 ->
  0 < (-30 - rssi) / (10 * (if Req_dec_T frequency (24 / 10) then 25 / 10 else 3)).
Proof.
  intros H. destruct (Req_dec_T frequency (24 / 10)); unfold Rdiv;
    apply Rmult_lt_0_compat; try Lra.lra; apply Rinv_0_lt_compat; Lra.lra.
Qed.

Lemma rssi_distance_bounds (rssi frequency : R) :
  calculate_rssi_distance rssi frequency <= 100
  /\ (rssi <> 0 -> 0 < calculate_rssi_distance rssi frequency)
  /\ (rssi <> 0 -> frequency <> 5 -> 1 <= calculate_rssi_distance rssi frequency).
Proof.
  unfold calculate_rssi_distance.
  destruct (Req_dec_T rssi 0) as [E0|E0].
  - split; [Lra.lra|]. split; intros H; contradiction.
  - cbv zeta. destruct (Rle_dec (-30) rssi) as [Hc|Hc].
    + repeat split; intros; Lra.lra.
    + assert (Hlt : rssi < -30) by Lra.lra.
      pose proof (rpower10_gt_1 _ (rssi_exponent_pos rssi frequency Hlt)) as Hp.
      set (d := Rpower 10 _) in *.
      unfold Rmin.
      destruct (Req_dec_T frequency 5) as [E5|E5];
        destruct (Rle_dec _ 100); repeat split; intros; try Lra.lra.
Qed.

(** Whatever the inputs, the estimated distance never exceeds [100] m;
    for a non-zero RSSI it is positive, and at any frequency other than
    [5.0] it is at least [1] m. *)
Theorem rssi_distance_range (rssi frequency : R) :
  calculate_rssi_distance rssi frequency <= 100
  /\ (rssi <> 0 -> 0 < calculate_rssi_distance rssi frequency)
  /\ (rssi <> 0 -> frequency <> 5 -> 1 <= calculate_rssi_distance rssi frequency).
Proof. apply rssi_distance_bounds. Qed.

Lemma rssi_distance_range_witness :
  -(75) <> 0 /\ 0 < calculate_rssi_distance (-(75)) 5
  /\ 24 / 10 <> 5 /\ 1 <= calculate_rssi_distance (-(75)) (24 / 10).
Proof.
  split; [Lra.lra|]. split; [apply (rssi_distance_range (-(75)) 5); Lra.lra|].
  split; [Lra.lra|]. apply (rssi_distance_range (-(75)) (24 / 10)); Lra.lra.
Defined.

Lemma rssi_distance_antimono_aux (r1 r2 frequency : R) :
  frequency <> 5 -> r1 <> 0 -> r2 <> 0 -> r1 <= r2 ->
  calculate_rssi_distance r2 frequency <= calculate_rssi_distance r1 frequency.
Proof.
  intros Hf H1 H2 Hle.
  destruct (rssi_distance_bounds r1 frequency) as [_ [_ Hd1]].
  specialize (Hd1 H1 Hf).
  unfold calculate_rssi_distance at 1.
  destruct (Req_dec_T r2 0) as [E|_]; [contradiction|]. cbv zeta.
  destruct (Rle_dec (-30) r2) as [Hc|Hc]; [exact Hd1|].
  unfold calculate_rssi_distance.
  destruct (Req_dec_T r1 0) as [E|_]; [contradiction|]. cbv zeta.
  destruct (Rle_dec (-30) r1) as [Hc1|Hc1]; [Lra.lra|].
  destruct (Req_dec_T frequency 5) as [E5|_]; [contradiction|].
  set (n := if Req_dec_T frequency (24 / 10) then 25 / 10 else 3).
  assert (Hn : 0 < n) by (unfold n; destruct (Req_dec_T frequency (24 / 10)); Lra.lra).
  assert (He : (-30 - r2) / (10 * n) <= (-30 - r1) / (10 * n)).
  { unfold Rdiv. apply Rmult_le_compat_r.
    - left. apply Rinv_0_lt_compat. Lra.lra.
    - Lra.lra. }
  assert (Hp : Rpower 10 ((-30 - r2) / (10 * n)) <= Rpower 10 ((-30 - r1) / (10 * n)))
    by (apply Rle_Rpower; Lra.lra).
  unfold Rmin.
  destruct (Rle_dec (Rpower 10 ((-30 - r2) / (10 * n))) 100);
    destruct (Rle_dec (Rpower 10 ((-30 - r1) / (10 * n))) 100); Lra.lra.
Qed.

(** At any frequency other than [5.0], a stronger signal never gives a
    larger distance: the estimate is non-increasing in the RSSI over
    non-zero readings. *)
Theorem rssi_distance_antimonotone (r1 r2 frequency : R) :
  frequency <> 5 -> r1 <> 0 -> r2 <> 0 -> r1 <= r2 ->
  calculate_rssi_distance r2 frequency <= calculate_rssi_distance r1 frequency.
Proof. apply rssi_distance_antimono_aux. Qed.

Lemma rssi_distance_antimonotone_witness :
  calculate_rssi_distance (-(40)) (24 / 10) <= calculate_rssi_distance (-(70)) (24 / 10).
Proof.
  apply rssi_distance_antimonotone; Lra.lra.
Defined.

Lemma signal_mono (p1 p2 : Z) :
  (p1 <= p2)%Z ->
  (convert_signal_percent_to_rssi p1 <= convert_signal_percent_to_rssi p2)%Q.
Proof.
  intros H.
  pose proof (signal_range p1) as R1. pose proof (signal_range p2) as R2.
  unfold convert_signal_percent_to_rssi in *.
  destruct (p1 <=? 0)%Z eqn:A1; [Lqa.lra|].
  destruct (p2 <=? 0)%Z eqn:A2; [apply Z.leb_le in A2; apply Z.leb_gt in A1; lia|].
  destruct (100 <=? p2)%Z eqn:B2; [Lqa.lra|].
  destruct (100 <=? p1)%Z eqn:B1; [apply Z.leb_le in B1; apply Z.leb_gt in B2; lia|].
  apply inject_Z_le in H. Lqa.lra.
Qed.

Lemma Q2R_signal_range (p : Z) :
  -90 <= Q2R (convert_signal_percent_to_rssi p) <= -30.
Proof.
  destruct (signal_range p) as [L U].
  apply Qle_Rle in L. apply Qle_Rle in U.
  unfold Q2R at 1 in L. unfold Q2R at 2 in U. cbn [Qnum Qden] in L, U.
  split; Lra.lra.
Qed.

(** The netsh scan path: a Windows signal percentage is converted to an
    RSSI, which is then used with the default frequency [2.4]; for every
    percentage the resulting distance lies in [[1, 100]] metres, and a
    higher percentage never gives a larger distance. *)
Theorem signal_percent_distance_range (p1 p2 : Z) :
  1 <= calculate_rssi_distance (Q2R (convert_signal_percent_to_rssi p1)) (24 / 10) <= 100
  /\ ((p1 <= p2)%Z ->
      calculate_rssi_distance (Q2R (convert_signal_percent_to_rssi p2)) (24 / 10)
      <= calculate_rssi_distance (Q2R (convert_signal_percent_to_rssi p1)) (24 / 10)).
Proof.
  pose proof (Q2R_signal_range p1) as R1. pose proof (Q2R_signal_range p2) as R2.
  assert (Hf : (24 / 10 : R) <> 5) by Lra.lra.
  destruct (rssi_distance_bounds (Q2R (convert_signal_percent_to_rssi p1)) (24 / 10))
    as [U [_ L]].
  split; [split; [apply L; Lra.lra | exact U]|].
  intros Hp. apply rssi_distance_antimono_aux; try Lra.lra.
  apply Qle_Rle, signal_mono, Hp.
Qed.

Lemma signal_percent_distance_range_witness :
  (-5 <= 130)%Z /\
  calculate_rssi_distance (Q2R (convert_signal_percent_to_rssi 130)) (24 / 10)
  <= calculate_rssi_distance (Q2R (convert_signal_percent_to_rssi (-5))) (24 / 10).
Proof.
  split; [lia|]. apply (signal_percent_distance_range (-5) 130). lia.
Defined.

End RssiExtraFacts.

Module MonitoringWindowFacts.

Import Monitoring MonitoringWindow.
Open Scope nat_scope.

Lemma length_lastn {A : Type} (k : nat) (l : list A) :
  List.length (lastn k l) = Nat.min k (List.length l).
Proof. unfold lastn. rewrite length_skipn. lia. Qed.

Lemma lastn_lastn_app {A : Type} (k : nat) (l m : list A) :
  lastn k (lastn k l ++ m) = lastn k (l ++ m).
Proof.
  unfold lastn. rewrite !length_app, length_skipn.
  destruct (Nat.le_gt_cases (List.length l) k) as [Hle|Hgt].
  - replace (List.length l - k) with 0 by lia. cbn [skipn].
    replace (List.length l - 0) with (List.length l) by lia. reflexivity.
  - replace (List.length l + List.length m - k)
      with (List.length m + (List.length l - k)) by lia.
    rewrite <- skipn_skipn, (skipn_app (List.length l - k) l m).
    replace (List.length l - k - List.length l) with 0 by lia.
    replace (List.length l - (List.length l - k) + List.length m - k)
      with (List.length m) by lia.
    reflexivity.
Qed.

Lemma store_history_lastn (s : snapshot) (h : list snapshot) :
  (List.length h <= 100)%nat -> store_history s h = lastn 100 (h ++ [s]).
Proof.
  intros Hh. unfold store_history, lastn. rewrite length_app. cbn [List.length].
  destruct (100 <? List.length h + 1)%nat eqn:E.
  - apply Nat.ltb_lt in E. replace (List.length h + 1 - 100) with 1 by lia.
    destruct (h ++ [s]); reflexivity.
  - apply Nat.ltb_ge in E. replace (List.length h + 1 - 100) with 0 by lia.
    reflexivity.
Qed.

(** The history is a sliding window: starting from a history of at most
    100 entries, storing the snapshots [ss] one after the other leaves
    exactly the last 100 entries of the old history followed by [ss]
    (all of them when there are fewer), in order; in particular, from an
    empty history, the last [min(len ss, 100)] snapshots. *)
Theorem history_sliding_window (ss h : list snapshot) :
  (List.length h <= 100)%nat -> store_all ss h = lastn 100 (h ++ ss).
Proof.
  revert h. induction ss as [|s ss IH]; intros h Hh; cbn [store_all fold_left].
  - unfold lastn. rewrite app_nil_r. replace (List.length h - 100) with 0 by lia.
    reflexivity.
  - change (fold_left (fun acc s0 => store_history s0 acc) ss (store_history s h))
      with (store_all ss (store_history s h)).
    rewrite IH.
    + rewrite store_history_lastn by exact Hh.
      rewrite lastn_lastn_app, <- app_assoc. reflexivity.
    + rewrite store_history_lastn by exact Hh. rewrite length_lastn. lia.
Qed.

Lemma history_sliding_window_witness :
  store_all (map (fun t => mkSnapshot t 1 2) (seq 0 105)) []
  = lastn 100 ([] ++ map (fun t => mkSnapshot t 1 2) (seq 0 105)).
Proof. apply history_sliding_window. cbn. lia. Defined.

End MonitoringWindowFacts.

Module P4SessionFacts.

Import stdpp.base stdpp.gmap stdpp.strings Persistence P4Session.
Open Scope nat_scope.

Lemma create_input_data (k v : string) (st : p4_state) :
  saved_data (fst (create_input k v st)) = <[k := v]> (saved_data st).
Proof.
  unfold create_input. destruct (decide (saved_data st !! k = Some v)) as [E|E].
  - cbn. symmetry. apply insert_id. exact E.
  - reflexivity.
Qed.

Lemma create_input_mirror (k v : string) (st : p4_state) :
  p4_loaded st ->
  save_file (fst (create_input k v st)) = Some (saved_data (fst (create_input k v st))).
Proof.
  intros [H|[H1 H2]]; unfold create_input.
  - destruct (decide (saved_data st !! k = Some v)); cbn; [exact H | reflexivity].
  - destruct (decide (saved_data st !! k = Some v)) as [E|E]; cbn; [|reflexivity].
    rewrite H2, lookup_empty in E. discriminate.
Qed.

Lemma p4_run_data (inputs : list (string * string)) (st : p4_state) :
  saved_data (p4_run inputs st)
  = fold_left (fun m kv => <[fst kv := snd kv]> m) inputs (saved_data st).
Proof.
  revert st. induction inputs as [|[k v] inputs IH]; intros st; [reflexivity|].
  unfold p4_run in *. cbn [fold_left]. rewrite IH, create_input_data. reflexivity.
Qed.

Lemma p4_run_mirror (inputs : list (string * string)) (st : p4_state) :
  p4_loaded st -> inputs <> [] ->
  save_file (p4_run inputs st) = Some (saved_data (p4_run inputs st)).
Proof.
  revert st. induction inputs as [|[k v] inputs IH]; intros st Hl Hne; [contradiction|].
  unfold p4_run in *. cbn [fold_left].
  pose proof (create_input_mirror k v st Hl) as Hm.
  destruct inputs as [|kv' inputs'].
  - exact Hm.
  - apply IH; [left; exact Hm | discriminate].
Qed.

(** [p4.py] keeps its save file in step with the form: from the state
    [load_data()] leaves, after any non-empty sequence of edits through
    [create_input], [SAVE_FILE] holds exactly [saved_data], and
    [saved_data] is the loaded dict with every typed value inserted at
    its key in order (the last value typed for a key wins), whether or
    not the value differed from the stored one. *)
Theorem p4_file_tracks_inputs (inputs : list (string * string)) (st : p4_state) :
  p4_loaded st -> inputs <> [] ->
  save_file (p4_run inputs st) = Some (saved_data (p4_run inputs st))
  /\ saved_data (p4_run inputs st)
     = fold_left (fun m kv => <[fst kv := snd kv]> m) inputs (saved_data st).
Proof.
  intros Hl Hne. split; [apply p4_run_mirror; assumption | apply p4_run_data].
Qed.

Lemma p4_file_tracks_inputs_witness :
  let st := mkP4 ∅ None in
  let inputs := [("nom_produit", "Gant"); ("prix", "49"); ("nom_produit", "Gant vocal")] in
  p4_loaded st /\ inputs <> [] /\
  save_file (p4_run inputs st) = Some (saved_data (p4_run inputs st))
  /\ saved_data (p4_run inputs st)
     = fold_left (fun m kv => <[fst kv := snd kv]> m) inputs (saved_data st).
Proof.
  cbv zeta. split; [right; split; reflexivity|]. split; [discriminate|].
  apply p4_file_tracks_inputs; [right; split; reflexivity | discriminate].
Defined.

End P4SessionFacts.

Module PdfListHelpersFacts.

Import stdpp.base stdpp.gmap PdfListHelpers.
Open Scope nat_scope.

Section Facts.

Context {A : Type}.

Lemma pad_loop_spec (fuel n : nat) (d : A) (xs : list A) :
  (n <= List.length xs + fuel)%nat ->
  pad_loop fuel n d xs = xs ++ repeat d (n - List.length xs).
Proof.
  revert xs. induction fuel as [|f IH]; intros xs Hn; cbn [pad_loop].
  - replace (n - List.length xs) with 0 by lia. rewrite app_nil_r. reflexivity.
  - destruct (List.length xs <? n)%nat eqn:E.
    + apply Nat.ltb_lt in E. rewrite IH by (rewrite length_app; cbn; lia).
      rewrite length_app, <- app_assoc. cbn [List.length].
      replace (n - List.length xs) with (S (n - (List.length xs + 1))) by lia.
      reflexivity.
    + apply Nat.ltb_ge in E. replace (n - List.length xs) with 0 by lia.
      rewrite app_nil_r. reflexivity.
Qed.

Lemma safe_list_get_nat (h : gmap nat (list A)) (a : nat) (xs : list A) (i : nat) (d : A) :
  h !! a = Some xs ->
  safe_list_get h (PList a) (Z.of_nat i) d = nth i xs d.
Proof.
  intros Ha. unfold safe_list_get. rewrite Ha.
  destruct (Z.of_nat i <? 0)%Z eqn:E1; [apply Z.ltb_lt in E1; lia|].
  destruct (Z.of_nat (List.length xs) <=? Z.of_nat i)%Z eqn:E2; cbn [orb].
  - apply Z.leb_le in E2. rewrite nth_overflow by lia. reflexivity.
  - rewrite Nat2Z.id. reflexivity.
Qed.

Lemma normalize_list_list (h : gmap nat (list A)) (a : nat) (xs : list A) (n : nat) (d : A) :
  h !! a = Some xs ->
  normalize_list h (PList a) n d
  = if (n <? List.length xs)%nat then (Fresh (firstn n xs), h)
    else (Same a, <[a := xs ++ repeat d (n - List.length xs)]> h).
Proof.
  intros Ha. unfold normalize_list. rewrite Ha.
  destruct (n <? List.length xs)%nat; [reflexivity|].
  rewrite pad_loop_spec by lia. reflexivity.
Qed.

Lemma nth_firstn_lt (i n : nat) (xs : list A) (d : A) :
  (i < n)%nat -> (n <= List.length xs)%nat -> nth i (firstn n xs) d = nth i xs d.
Proof.
  intros Hi Hn. rewrite <- (firstn_skipn n xs) at 2.
  rewrite app_nth1; [reflexivity|]. rewrite length_firstn. lia.
Qed.

Lemma nth_padded (i n : nat) (xs : list A) (d : A) :
  nth i (xs ++ repeat d (n - List.length xs)) d = nth i xs d.
Proof.
  destruct (Nat.lt_ge_cases i (List.length xs)) as [Hi|Hi].
  - apply app_nth1, Hi.
  - rewrite app_nth2 by exact Hi. rewrite nth_repeat, nth_overflow by exact Hi.
    reflexivity.
Qed.

(** [normalize_list] always returns a list of exactly [length] elements,
    and its [i]-th element is what [safe_list_get] returns at index [i]
    on the original argument: the elements of the original list where
    they exist, [default_value] after them or when the argument is not a
    list. *)
Theorem normalize_list_safe_list_get (h : gmap nat (list A)) (lst : pyarg) (n : nat) (d : A) :
  (forall a, lst = PList a -> is_Some (h !! a)) ->
  exists ys,
    nl_contents (snd (normalize_list h lst n d)) (fst (normalize_list h lst n d)) = Some ys
    /\ List.length ys = n
    /\ forall i, (i < n)%nat -> nth i ys d = safe_list_get h lst (Z.of_nat i) d.
Proof.
  intros Hwf. destruct lst as [a|].
  - destruct (Hwf a eq_refl) as [xs Ha].
    rewrite (normalize_list_list h a xs n d Ha).
    destruct (n <? List.length xs)%nat eqn:E.
    + apply Nat.ltb_lt in E. exists (firstn n xs). cbn [nl_contents fst snd].
      split; [reflexivity|]. split; [rewrite length_firstn; lia|].
      intros i Hi. rewrite safe_list_get_nat with (xs := xs) by exact Ha.
      apply nth_firstn_lt; lia.
    + apply Nat.ltb_ge in E. exists (xs ++ repeat d (n - List.length xs)).
      cbn [nl_contents fst snd]. rewrite lookup_insert_eq. split; [reflexivity|].
      split; [rewrite length_app, repeat_length; lia|].
      intros i Hi. rewrite safe_list_get_nat with (xs := xs) by exact Ha.
      apply nth_padded.
  - exists (repeat d n). cbn. split; [reflexivity|].
    split; [apply repeat_length|].
    intros i Hi. apply nth_repeat.
Qed.

(** Aliasing of [normalize_list]: a list no longer than [length] is the
    caller's own object, padded in place with [default_value] (so the
    list stored in [st.session_state] grows too); a longer list is left
    unchanged and a truncated copy is returned; no other list is
    modified. *)
Theorem normalize_list_aliasing (h : gmap nat (list A)) (a : nat) (xs : list A) (n : nat) (d : A) :
  h !! a = Some xs ->
  ((List.length xs <= n)%nat ->
     fst (normalize_list h (PList a) n d) = Same a
     /\ snd (normalize_list h (PList a) n d) !! a = Some (xs ++ repeat d (n - List.length xs)))
  /\ ((n < List.length xs)%nat ->
     fst (normalize_list h (PList a) n d) = Fresh (firstn n xs)
     /\ snd (normalize_list h (PList a) n d) = h)
  /\ (forall b, b <> a -> snd (normalize_list h (PList a) n d) !! b = h !! b).
Proof.
  intros Ha. rewrite (normalize_list_list h a xs n d Ha).
  destruct (n <? List.length xs)%nat eqn:E.
  - apply Nat.ltb_lt in E. split; [intros; lia|]. split; [split; reflexivity|].
    reflexivity.
  - apply Nat.ltb_ge in E. split; [|split; [intros; lia|]].
    + intros _. cbn. split; [reflexivity|]. apply lookup_insert_eq.
    + intros b Hb. cbn. apply lookup_insert_ne. congruence.
Qed.

End Facts.

Lemma normalize_list_safe_list_get_witness :
  let h : gmap nat (list Z) := <[7%nat := [120%Z]]> ∅ in
  exists ys,
    nl_contents (snd (normalize_list h (PList 7) 3 0%Z)) (fst (normalize_list h (PList 7) 3 0%Z))
    = Some ys
    /\ List.length ys = 3%nat
    /\ forall i, (i < 3)%nat -> nth i ys 0%Z = safe_list_get h (PList 7) (Z.of_nat i) 0%Z.
Proof.
  cbv zeta. apply normalize_list_safe_list_get.
  intros a Ha. injection Ha as <-. eexists. reflexivity.
Defined.

Lemma normalize_list_aliasing_witness :
  let h : gmap nat (list Z) := <[7%nat := [120%Z]]> ∅ in
  (snd (normalize_list h (PList 7) 3 0%Z) !! 7%nat = Some [120%Z; 0%Z; 0%Z])
  /\ snd (normalize_list h (PList 7) 3 0%Z) !! 2%nat = h !! 2%nat.
Proof.
  cbv zeta.
  destruct (normalize_list_aliasing (<[7%nat := [120%Z]]> ∅) 7 [120%Z] 3 0%Z
              ltac:(apply lookup_insert_eq)) as [H1 [_ H3]].
  split; [apply (proj2 (H1 ltac:(cbn; lia))) | apply H3; discriminate].
Defined.

End PdfListHelpersFacts.

Module WifiReportFacts.

Import Rssi WifiReport RssiExtraFacts.
Open Scope string_scope.
Open Scope list_scope.
Open Scope R_scope.

Definition total_counted (c : counters) : nat :=
  (open_networks c + wep_networks c + wpa_networks c + wpa2_networks c
   + wpa3_networks c)%nat.

Lemma count_profile_total (c : counters) (p : profile) :
  (total_counted c <= total_counted (count_profile c p) <= S (total_counted c))%nat
  /\ (wpa2_networks (count_profile c p) + wpa3_networks (count_profile c p)
      <= total_counted (count_profile c p))%nat.
Proof.
  unfold count_profile, total_counted.
  destruct (_ || _); [cbn; lia|].
  destruct (contains "wep" _); [cbn; lia|].
  destruct (contains "wpa3" _); [cbn; lia|].
  destruct (contains "wpa2" _); [cbn; lia|].
  destruct (contains "wpa" _); cbn; lia.
Qed.

Lemma fold_count_total (ps : list profile) (c : counters) :
  (wpa2_networks c + wpa3_networks c <= total_counted c)%nat ->
  (total_counted (fold_left count_profile ps c) <= total_counted c + List.length ps)%nat
  /\ (wpa2_networks (fold_left count_profile ps c) + wpa3_networks (fold_left count_profile ps c)
      <= total_counted (fold_left count_profile ps c))%nat.
Proof.
  revert c. induction ps as [|p ps IH]; intros c Hc; cbn [fold_left List.length].
  - split; [lia | exact Hc].
  - destruct (count_profile_total c p) as [[H1 H2] H3].
    destruct (IH (count_profile c p) H3) as [IH1 IH2]. split; [lia | exact IH2].
Qed.

Lemma ratio_bounds (w n : nat) :
  (w <= n)%nat -> (0 < n)%nat -> 0 <= INR w / INR n * 100 <= 100.
Proof.
  intros Hw Hn. apply le_INR in Hw. apply lt_0_INR in Hn.
  assert (Hi : 0 < / INR n) by (apply Rinv_0_lt_compat; exact Hn).
  assert (Hr : INR w * / INR n <= 1).
  { rewrite <- (Rinv_r (INR n)) by Lra.lra.
    apply Rmult_le_compat_r; Lra.lra. }
  pose proof (pos_INR w). unfold Rdiv.
  split; [|Lra.lra]. apply Rmult_le_pos; [apply Rmult_le_pos|]; Lra.lra.
Qed.

(** [_analyze_security] counts each profile in at most one category, so
    the five counters add up to at most [len(profiles)], and its
    [security_score] always lies in [[0, 100]]; with no profile every
    counter and the score are [0]. *)
Theorem analyze_security_bounds (profiles : list profile) :
  (total_counted (fst (analyze_security profiles)) <= List.length profiles)%nat
  /\ 0 <= snd (analyze_security profiles) <= 100
  /\ (profiles = [] -> analyze_security profiles = (counters0, 0)).
Proof.
  destruct (fold_count_total profiles counters0 ltac:(cbn; lia)) as [H1 H2].
  unfold analyze_security. cbn [fst snd]. split; [cbn in H1; lia|]. split.
  - destruct (0 <? List.length profiles)%nat eqn:E; [|Lra.lra].
    apply Nat.ltb_lt in E. apply ratio_bounds; [|exact E].
    unfold total_counted in H1, H2. cbn in H1. lia.
  - intros ->. reflexivity.
Qed.

Lemma analyze_security_bounds_witness :
  analyze_security [] = (counters0, 0)
  /\ 0 <= snd (analyze_security [mkProfile (Some "WPA2-Personal") (-(50)) (24 / 10) None;
                                   mkProfile None (-(80)) 5 None]) <= 100.
Proof.
  split.
  - apply (proj2 (proj2 (analyze_security_bounds []))). reflexivity.
  - apply (proj1 (proj2 (analyze_security_bounds _))).
Defined.

Lemma count_profile_unknown (c : counters) (p : profile) :
  p_security p = None \/ p_security p = Some "Unknown" -> count_profile c p = c.
Proof.
  intros [H|H]; unfold count_profile; rewrite H; reflexivity.
Qed.

Lemma fold_count_unknown (ps : list profile) (c : counters) :
  Forall (fun p => p_security p = None \/ p_security p = Some "Unknown") ps ->
  fold_left count_profile ps c = c.
Proof.
  intros H. revert c. induction H as [|p ps Hp Hps IH]; intros c; [reflexivity|].
  cbn [fold_left]. rewrite count_profile_unknown by exact Hp. apply IH.
Qed.

Lemma rec_open_count_unknown (ps : list profile) :
  Forall (fun p => p_security p = None \/ p_security p = Some "Unknown") ps ->
  rec_open_count ps = 0%nat.
Proof.
  intros H. unfold rec_open_count. induction H as [|p ps [Hp|Hp] Hps IH];
    [reflexivity| |]; cbn [filter]; rewrite Hp; exact IH.
Qed.

(** [get_wifi_profiles] tags every profile it reads from netsh with
    ['security': 'Unknown']; for such profiles, as for profiles without a
    [security] key, [_analyze_security] counts no network in any
    category and gives a [security_score] of [0], and
    [_generate_recommendations] never asks to secure an open network. *)
Theorem unknown_security_scores_zero (profiles : list profile) :
  Forall (fun p => p_security p = None \/ p_security p = Some "Unknown") profiles ->
  analyze_security profiles = (counters0, 0)
  /\ rec_open_count profiles = 0%nat
  /\ (forall n_devices k, ~ In (RecSecureOpen k) (generate_recommendations profiles n_devices)).
Proof.
  intros H. split.
  - unfold analyze_security. rewrite fold_count_unknown by exact H.
    destruct (0 <? List.length profiles)%nat; [|reflexivity].
    cbn [wpa2_networks wpa3_networks counters0 Nat.add INR].
    unfold Rdiv. rewrite !Rmult_0_l. reflexivity.
  - split; [apply rec_open_count_unknown, H|].
    intros n_devices k.
    unfold generate_recommendations. rewrite (rec_open_count_unknown profiles H).
    cbv zeta.
    destruct (0 <? rec_weak_count profiles)%nat, (20 <? n_devices)%nat,
      (List.length profiles =? 1)%nat; cbn;
      intros Hin; repeat (destruct Hin as [Hin|Hin]; try discriminate); try contradiction.
Qed.

Lemma unknown_security_scores_zero_witness :
  let ps := [mkProfile (Some "Unknown") (-(45)) (24 / 10) None;
             mkProfile (Some "Unknown") (-(75)) (24 / 10) None] in
  Forall (fun p => p_security p = None \/ p_security p = Some "Unknown") ps
  /\ analyze_security ps = (counters0, 0).
Proof.
  cbv zeta.
  assert (HF : Forall (fun p => p_security p = None \/ p_security p = Some "Unknown")
                 [mkProfile (Some "Unknown") (-(45)) (24 / 10) None;
                  mkProfile (Some "Unknown") (-(75)) (24 / 10) None])
    by (repeat constructor; right; reflexivity).
  split; [exact HF|]. apply (proj1 (unknown_security_scores_zero _ HF)).
Defined.

Lemma filter_length_mono {A : Type} (f g : A -> bool) (l : list A) :
  (forall x, f x = true -> g x = true) ->
  (List.length (filter f l) <= List.length (filter g l))%nat.
Proof.
  intros Hfg. induction l as [|x l IH]; cbn [filter]; [lia|].
  destruct (f x) eqn:E.
  - rewrite (Hfg x E). cbn. lia.
  - destruct (g x); cbn; lia.
Qed.

Definition open_pred (p : profile) : bool :=
  let security := lower (get_default (p_security p) "Unknown") in
  contains "open" security || String.eqb security "none".

Lemma fold_count_open (ps : list profile) (c : counters) :
  open_networks (fold_left count_profile ps c)
  = (open_networks c + List.length (filter open_pred ps))%nat.
Proof.
  revert c. induction ps as [|p ps IH]; intros c; cbn [fold_left filter]; [cbn; lia|].
  rewrite IH. unfold count_profile, open_pred.
  destruct (_ || _); cbn [List.length open_networks]; [lia|].
  destruct (contains "wep" _); [cbn; lia|].
  destruct (contains "wpa3" _); [cbn; lia|].
  destruct (contains "wpa2" _); [cbn; lia|].
  destruct (contains "wpa" _); cbn; lia.
Qed.

(** The open-network count quoted by [_generate_recommendations] never
    exceeds the [open_networks] counter of [_analyze_security] on the
    same profiles: the recommendation only looks for ["open"], while the
    analysis also counts a security of ["none"]. *)
Theorem recommendation_open_le_analysis (profiles : list profile) :
  (rec_open_count profiles <= open_networks (fst (analyze_security profiles)))%nat.
Proof.
  unfold analyze_security. cbn [fst]. rewrite fold_count_open. cbn [open_networks counters0].
  unfold rec_open_count. apply filter_length_mono.
  intros p Hp. unfold open_pred. destruct (p_security p) as [s|]; cbn [get_default] in *.
  - rewrite Hp. reflexivity.
  - discriminate.
Qed.

(** [_generate_recommendations] always returns between one and four
    messages, and returns the single message ["Network configuration
    appears optimal"] exactly when no profile mentions ["open"], no
    signal is below [-70] dBm, there are at most 20 devices and there is
    not exactly one access point; that message never comes with
    another. *)
Theorem recommendations_shape (profiles : list profile) (n_devices : nat) :
  (1 <= List.length (generate_recommendations profiles n_devices) <= 4)%nat
  /\ (generate_recommendations profiles n_devices = [RecOptimal]
      <-> rec_open_count profiles = 0%nat /\ rec_weak_count profiles = 0%nat
          /\ (n_devices <= 20)%nat /\ List.length profiles <> 1%nat)
  /\ (In RecOptimal (generate_recommendations profiles n_devices)
      -> generate_recommendations profiles n_devices = [RecOptimal]).
Proof.
  unfold generate_recommendations. cbv zeta.
  destruct (0 <? rec_open_count profiles)%nat eqn:E1;
  destruct (0 <? rec_weak_count profiles)%nat eqn:E2;
  destruct (20 <? n_devices)%nat eqn:E3;
  destruct (List.length profiles =? 1)%nat eqn:E4;
  rewrite ?Nat.ltb_lt, ?Nat.ltb_ge, ?Nat.eqb_eq, ?Nat.eqb_neq in *; cbn.
  all: split; [lia|].
  all: split; [split|].
  all: try (intros Heq; discriminate).
  all: try (intros Heq; repeat split; lia).
  all: try (intros (A1 & A2 & A3 & A4); exfalso; lia).
  all: try (intros _; reflexivity).
  all: intros Hin; repeat (destruct Hin as [Hin|Hin]; try discriminate); contradiction.
Qed.

Lemma recommendations_shape_witness :
  generate_recommendations [] 5 = [RecOptimal]
  /\ (1 <= List.length (generate_recommendations
                          [mkProfile (Some "Open") (-(80)) (24 / 10) None] 30) <= 4)%nat.
Proof.
  split.
  - apply (proj2 (proj1 (proj2 (recommendations_shape [] 5)))).
    split; [reflexivity|]. split; [reflexivity|]. split; [lia | discriminate].
  - apply (proj1 (recommendations_shape _ 30)).
Defined.

Lemma coverage_fold (ps : list profile) (a : R) :
  fold_left (fun total_area p =>
               total_area + PI * get_default (p_distance p) 0 ^ 2) ps a
  = a + fold_left (fun total_area p =>
                     total_area + PI * get_default (p_distance p) 0 ^ 2) ps 0.
Proof.
  revert a. induction ps as [|p ps IH]; intros a; cbn [fold_left]; [Lra.lra|].
  rewrite IH, (IH (0 + _)). Lra.lra.
Qed.

Lemma coverage_cons (p : profile) (ps : list profile) :
  calculate_coverage_area (p :: ps)
  = PI * get_default (p_distance p) 0 ^ 2 + calculate_coverage_area ps.
Proof.
  unfold calculate_coverage_area. cbn [fold_left]. rewrite coverage_fold.
  destruct ps; cbn [fold_left]; Lra.lra.
Qed.

(** [_calculate_coverage_area] is never negative and adds up over the
    profiles: the area of two lists of profiles put together is the sum
    of their areas, so adding a profile never shrinks it. *)
Theorem coverage_area_additive (ps1 ps2 : list profile) :
  0 <= calculate_coverage_area ps1
  /\ calculate_coverage_area (ps1 ++ ps2)
     = calculate_coverage_area ps1 + calculate_coverage_area ps2.
Proof.
  pose proof PI_RGT_0 as Hpi.
  induction ps1 as [|p ps1 [IH1 IH2]].
  - cbn. split; [Lra.lra|]. Lra.lra.
  - rewrite <- app_comm_cons, !coverage_cons, IH2.
    assert (0 <= PI * get_default (p_distance p) 0 ^ 2)
      by (apply Rmult_le_pos; [Lra.lra | apply pow2_ge_0]).
    split; Lra.lra.
Qed.

Lemma rssi_distance_sq (rssi frequency : R) :
  calculate_rssi_distance rssi frequency ^ 2 <= 10000
  /\ (rssi <> 0 -> frequency <> 5 -> 1 <= calculate_rssi_distance rssi frequency ^ 2).
Proof.
  destruct (rssi_distance_bounds rssi frequency) as [U [P L]].
  destruct (Req_dec_T rssi 0) as [E|E].
  - assert (Hm : calculate_rssi_distance rssi frequency = -1).
    { unfold calculate_rssi_distance. destruct (Req_dec_T rssi 0); [reflexivity|contradiction]. }
    rewrite Hm. split; [Lra.lra | intros; contradiction].
  - specialize (P E). split.
    + Lra.nra.
    + intros _ Hf. specialize (L E Hf). Lra.nra.
Qed.

(** In [generate_network_report] every profile gets
    [distance = calculate_rssi_distance(rssi, frequency)] before the
    coverage is computed; the [network_coverage_area] is then at most
    [len(profiles) * pi * 100^2], and at least [len(profiles) * pi] when
    no RSSI is [0] and no frequency is [5.0]. *)
Theorem report_coverage_bounds (profiles : list profile) :
  0 <= calculate_coverage_area (map with_distance profiles)
       <= INR (List.length profiles) * PI * 10000
  /\ (Forall (fun p => p_rssi p <> 0 /\ p_frequency p <> 5) profiles ->
      INR (List.length profiles) * PI <= calculate_coverage_area (map with_distance profiles)).
Proof.
  pose proof PI_RGT_0 as Hpi.
  induction profiles as [|p ps [[IH0 IH1] IH2]].
  - cbn. split; [Lra.lra | intros _; Lra.lra].
  - cbn [map List.length]. rewrite coverage_cons, S_INR. cbn [with_distance p_distance get_default].
    destruct (rssi_distance_sq (p_rssi p) (p_frequency p)) as [Q1 Q2].
    set (d2 := calculate_rssi_distance (p_rssi p) (p_frequency p) ^ 2) in *.
    assert (0 <= d2) by (unfold d2; apply pow2_ge_0).
    split; [split; Lra.nra|].
    intros HF. inversion HF as [|x l [Hr Hf] HF' Hx]; subst.
    specialize (IH2 HF'). specialize (Q2 Hr Hf). Lra.nra.
Qed.

Lemma report_coverage_bounds_witness :
  let ps := [mkProfile (Some "WPA2") (-(45)) (24 / 10) None;
             mkProfile (Some "WPA3") (-(60)) (24 / 10) None] in
  Forall (fun p => p_rssi p <> 0 /\ p_frequency p <> 5) ps
  /\ INR (List.length ps) * PI <= calculate_coverage_area (map with_distance ps).
Proof.
  cbv zeta.
  assert (HF : Forall (fun p => p_rssi p <> 0 /\ p_frequency p <> 5)
                 [mkProfile (Some "WPA2") (-(45)) (24 / 10) None;
                  mkProfile (Some "WPA3") (-(60)) (24 / 10) None])
    by (repeat constructor; cbn; Lra.lra).
  split; [exact HF|]. apply (proj2 (report_coverage_bounds _) HF).
Defined.

Lemma length_str_map (f : ascii -> ascii) (s : string) :
  String.length (str_map f s) = String.length s.
Proof. induction s as [|c s IH]; cbn; [reflexivity | rewrite IH; reflexivity]. Qed.

Lemma substring_short (s : string) (n : nat) :
  (String.length s <= n)%nat -> substring 0 n s = s.
Proof.
  revert n. induction s as [|c s IH]; intros n Hn; destruct n; cbn in *;
    try reflexivity; try lia.
  rewrite IH by lia. reflexivity.
Qed.

Lemma substring_prefix (s t : string) :
  substring 0 (String.length s) (String.append s t) = s.
Proof.
  induction s as [|c s IH]; [destruct t; reflexivity|].
  change (String c (substring 0 (String.length s) (String.append s t)) = String c s).
  rewrite IH. reflexivity.
Qed.

Lemma mac_vendors_key_length (k v : string) :
  dict_get_str mac_vendors k = Some v -> String.length k = 8%nat.
Proof.
  intros H. unfold mac_vendors in H. cbn [dict_get_str] in H.
  repeat (let E := fresh "E" in destruct (String.eqb k _) eqn:E in H;
          [apply String.eqb_eq in E; subst k; reflexivity|]).
  discriminate H.
Qed.

Lemma length_append_str (s t : string) :
  String.length (String.append s t) = (String.length s + String.length t)%nat.
Proof. induction s as [|c s IH]; simpl; [reflexivity | rewrite IH; reflexivity]. Qed.

Lemma vendor_of_prefix (s suffix : string) :
  String.length s = 8%nat ->
  get_vendor_from_mac (String.append s suffix)
  = get_default (dict_get_str mac_vendors (upper s)) "Unknown Vendor".
Proof.
  intros Hs. unfold get_vendor_from_mac.
  assert (L : String.length (String.append s suffix) = (8 + String.length suffix)%nat)
    by (rewrite length_append_str, Hs; reflexivity).
  destruct (String.eqb_spec (String.append s suffix) "") as [E|_].
  { rewrite E in L. cbn in L. lia. }
  destruct (String.eqb_spec (String.append s suffix) "Unknown") as [E|_].
  { rewrite E in L. cbn in L. lia. }
  cbn [orb]. rewrite <- Hs, substring_prefix. reflexivity.
Qed.

(** Vendor lookup by OUI: every prefix listed by [_load_mac_vendors] is
    recognised whatever follows it, written in upper or lower case; a
    string shorter than the 8 characters of an OUI is never attributed
    to a vendor. *)
Theorem vendor_lookup_by_oui :
  (forall oui name suffix, In (oui, name) mac_vendors ->
     get_vendor_from_mac (String.append oui suffix) = name
     /\ get_vendor_from_mac (String.append (lower oui) suffix) = name)
  /\ (forall mac, (String.length mac < 8)%nat ->
        get_vendor_from_mac mac = "Unknown" \/ get_vendor_from_mac mac = "Unknown Vendor").
Proof.
  split.
  - intros oui name suffix Hin.
    unfold mac_vendors in Hin.
    repeat (destruct Hin as [Hin|Hin];
            [injection Hin as <- <-;
             split; rewrite vendor_of_prefix by reflexivity; vm_compute; reflexivity|]).
    contradiction.
  - intros mac Hm. unfold get_vendor_from_mac.
    destruct (String.eqb mac "" || String.eqb mac "Unknown"); [left; reflexivity|right].
    rewrite substring_short by lia.
    destruct (dict_get_str mac_vendors (upper mac)) as [v|] eqn:E; [|reflexivity].
    apply mac_vendors_key_length in E. unfold upper in E.
    rewrite length_str_map in E. lia.
Qed.

Lemma vendor_lookup_by_oui_witness :
  get_vendor_from_mac (String.append "00:1B:63" ":AA:BB:CC") = "Apple"
  /\ (get_vendor_from_mac "00:1b" = "Unknown" \/ get_vendor_from_mac "00:1b" = "Unknown Vendor").
Proof.
  destruct vendor_lookup_by_oui as [H1 H2]. split.
  - apply (H1 "00:1B:63" "Apple" ":AA:BB:CC"). cbn. right. right. left. reflexivity.
  - apply H2. cbn. lia.
Defined.

End WifiReportFacts.

Module SerializableFacts.

Import Serializable.
Open Scope string_scope.
Open Scope list_scope.
Open Scope Q_scope.

Lemma convert_json_ready_id : forall obj, json_ready obj = true -> convert_to_serializable obj = obj.
Proof.
  fix IH 1. intros obj H. destruct obj as [f|cells|cols|items|items|items|z|q|s|b| |r];
    cbn in H |- *; try discriminate; try reflexivity.
  - f_equal. revert items H. fix IHl 1. intros items H.
    destruct items as [|[k v] items]; [reflexivity|].
    cbn in H |- *. apply andb_true_iff in H as [H1 H2].
    rewrite (IH v H1), (IHl items H2). reflexivity.
  - f_equal. revert items H. fix IHl 1. intros items H.
    destruct items as [|v items]; [reflexivity|].
    cbn in H |- *. apply andb_true_iff in H as [H1 H2].
    rewrite (IH v H1), (IHl items H2). reflexivity.
Qed.

Lemma convert_cells_ready : forall obj, cells_ready obj = true -> json_ready (convert_to_serializable obj) = true.
Proof.
  fix IH 1. intros obj H. destruct obj as [f|cells|cols|items|items|items|z|q|s|b| |r];
    cbn in H |- *; try reflexivity.
  - exact H.
  - revert cols H. fix IHc 1. intros cols H.
    destruct cols as [|[c col] cols]; [reflexivity|].
    cbn in H |- *. apply andb_true_iff in H as [H1 H2].
    rewrite H1. exact (IHc cols H2).
  - exact H.
  - revert items H. fix IHl 1. intros items H.
    destruct items as [|[k v] items]; [reflexivity|].
    cbn in H |- *. apply andb_true_iff in H as [H1 H2].
    rewrite (IH v H1). exact (IHl items H2).
  - revert items H. fix IHl 1. intros items H.
    destruct items as [|v items]; [reflexivity|].
    cbn in H |- *. apply andb_true_iff in H as [H1 H2].
    rewrite (IH v H1). exact (IHl items H2).
Qed.

(** [convert_to_serializable] returns JSON data as it is: on a value
    that [json.dumps] already accepts (dicts with string keys, lists,
    numbers, strings, booleans, [None]) it is the identity. *)
Theorem convert_to_serializable_json_identity (obj : pyobj) :
  json_ready obj = true -> convert_to_serializable obj = obj.
Proof. apply convert_json_ready_id. Qed.

Lemma convert_to_serializable_json_identity_witness :
  let obj := ODict [("company_name", OStr "Atlas"); ("capital", OFloat (25000 # 1));
                    ("credits", OList [OInt 1; OBool true; ONone])] in
  json_ready obj = true /\ convert_to_serializable obj = obj.
Proof.
  cbv zeta. split; [reflexivity|]. apply convert_to_serializable_json_identity. reflexivity.
Defined.

(** When every array, DataFrame and Series inside a session value holds
    only JSON-ready cells, [convert_to_serializable] yields a value
    [json.dumps] accepts (datetimes become their formatted string, other
    objects their [str]), and converting it again changes nothing. *)
Theorem convert_to_serializable_json_ready (obj : pyobj) :
  cells_ready obj = true ->
  json_ready (convert_to_serializable obj) = true
  /\ convert_to_serializable (convert_to_serializable obj) = convert_to_serializable obj.
Proof.
  intros H. pose proof (convert_cells_ready obj H) as J.
  split; [exact J | apply convert_json_ready_id, J].
Qed.

Lemma convert_to_serializable_json_ready_witness :
  let obj := ODict [("created", ODatetime "2024-01-31 10:00:00");
                    ("immos", OFrame [("Montant", [("0", OFloat (1200 # 1)); ("1", OInt 300)])]);
                    ("logo", OOther "<PIL.Image>")] in
  cells_ready obj = true /\ json_ready (convert_to_serializable obj) = true.
Proof.
  cbv zeta. split; [reflexivity|]. apply convert_to_serializable_json_ready. reflexivity.
Defined.

End SerializableFacts.
